(** * The Claude LLM adapter of the modular pipelines ([src/pipelines/claude.py])

    A shallow embedding of [ClaudeLLMAdapter] and the properties of its
    option merging, credential resolution, message construction, response
    normalisation and client-handle life cycle.

    Modelling conventions.
    - A Python [str] is a Rocq [string] read as a sequence of code points
      below 256; [is_space] is [str.isspace] on that range.
    - A Python [float] is an IEEE 754 binary64 value, [spec_float].
    - A [Dict[str, Any]] is a mutable object: the store maps references to
      [gmap string pyval], and the adapter and its callers hold references.
    - The Anthropic SDK is an environment: whether the package imported, and
      what [client.messages.create] answers.
    - [await loop.run_in_executor(...)] is taken as one sequential step. *)

From Stdlib Require Import ZArith String Ascii List Bool Lia.
From Stdlib Require Import Floats.SpecFloat.
From stdpp Require Import gmap strings list fin_maps.

Set Warnings "-register-all".
Local Open Scope string_scope.
Local Open Scope list_scope.

(** ** Python values *)

Inductive pyval :=
| VNone
| VBool (b : bool)
| VInt (z : Z)
| VFloat (f : spec_float)
| VStr (s : string)
| VList (l : list pyval)
| VDict (d : list (string * pyval)).

(** Truth value testing ([bool(v)]). *)
Definition truthy (v : pyval) : bool :=
  match v with
  | VNone => false
  | VBool b => b
  | VInt z => negb (z =? 0)%Z
  | VFloat (S754_zero _) => false
  | VFloat _ => true
  | VStr "" => false
  | VStr _ => true
  | VList [] => false
  | VList _ => true
  | VDict [] => false
  | VDict _ => true
  end.

(** [a or b] *)
Definition py_or (a b : pyval) : pyval := if truthy a then a else b.

(** The literals [0.6], [0.9] and [0.2] as binary64 values. *)
Definition float_0_6 : spec_float := S754_finite false 5404319552844595 (-53).
Definition float_0_9 : spec_float := S754_finite false 8106479329266893 (-53).
Definition float_0_2 : spec_float := S754_finite false 7205759403792794 (-55).

(** ** Dictionaries *)

Abbreviation dict := (gmap string pyval).

(** [d.get(k)] *)
Definition dict_get (d : dict) (k : string) : pyval := default VNone (d !! k).

(** [d.get(k, dflt)] *)
Definition dict_get_default (d : dict) (k : string) (dflt : pyval) : pyval :=
  default dflt (d !! k).

(** [d.setdefault(k, v)], as the dictionary it leaves behind *)
Definition dict_setdefault (k : string) (v : pyval) (d : dict) : dict :=
  match d !! k with
  | Some _ => d
  | None => <[k := v]> d
  end.

(** [{**a, **b, **c}]: later displays overwrite earlier ones. *)
Definition dict_display3 (a b c : dict) : dict := c ∪ (b ∪ a).

(** ** The SDK, the application configuration and the response type *)

(** A handle made by [anthropic.Anthropic(api_key=...)]: the key it was
    made with, and which construction it is. *)
Record Client := {
  client_serial : nat;
  client_api_key : pyval
}.

Record ChatMessage := {
  role : string;
  content : pyval
}.

Record Request := {
  req_model : pyval;
  req_max_tokens : pyval;
  req_temperature : pyval;
  req_messages : list ChatMessage
}.

(** A content segment of a reply; [None] is a missing attribute. *)
Record ContentBlock := {
  block_type : option string;
  block_text : option string
}.

(** A reply; [None] is a missing or [None] [content] attribute. *)
Record Reply := {
  reply_content : option (list ContentBlock)
}.

Inductive remote_result :=
| Replied (r : Reply)
| Failed (err : string).

Inductive log_level := LDebug | LWarning.

Inductive event :=
| EvLog (lvl : log_level) (msg : string) (fields : list (string * pyval))
| EvNewClient (c : Client)
| EvCreate (c : Client) (req : Request).

(** The module-level [anthropic] ([None] when the import failed) and the
    answer of [client.messages.create] given the events so far. *)
Record Env := {
  anthropic_installed : bool;
  messages_create : list event -> Client -> Request -> remote_result
}.

(** Modelled from the spec: [AppConfig] of [src/config.py], of which the
    adapter reads one thing, "a global application configuration object
    exposing an optional [llm.prompt] string used as system-prompt fallback".
    [None] is an attribute that is missing. *)
Record LLMSection := { prompt : option pyval }.
Record AppConfig := { llm : option LLMSection }.

(** Modelled from the spec: [LLMResponse] of [src/pipelines/base.py], the
    "response object: normalized text, an empty tool-call list, and metadata
    containing at least the resolved model name", with the three fields
    [generate] passes to its constructor. *)
Record LLMResponse := {
  text : string;
  tool_calls : list pyval;
  metadata : dict
}.

(** ** The adapter and the world it runs in *)

Abbreviation loc := positive.

Record ClaudeLLMAdapter := {
  component_key : string;
  _app_config : AppConfig;
  _provider_defaults : loc;
  _pipeline_defaults : loc;
  _client : option Client
}.

Record State := {
  self : ClaudeLLMAdapter;
  heap : gmap loc dict;
  trace : list event;
  constructed : nat
}.

Inductive exn :=
| RuntimeError (msg : string)
| KeyError (key : string)
| RemoteError (err : string).

(** [Fault] is a reference to a dictionary that is not in the store; no
    Python program reaches it. *)
Inductive outcome (A : Type) :=
| Ret (a : A)
| Raise (e : exn)
| Fault.
Arguments Ret {A} a.
Arguments Raise {A} e.
Arguments Fault {A}.

Definition M (A : Type) : Type := Env -> State -> outcome A * State.

#[export] Instance M_ret : MRet M := fun A a _ st => (Ret a, st).
#[export] Instance M_bind : MBind M := fun A B f m env st =>
  match m env st with
  | (Ret a, st') => f a env st'
  | (Raise e, st') => (Raise e, st')
  | (Fault, st') => (Fault, st')
  end.

Definition raise {A} (e : exn) : M A := fun _ st => (Raise e, st).
Definition get_env : M Env := fun env st => (Ret env, st).
Definition get_self : M ClaudeLLMAdapter := fun _ st => (Ret (self st), st).
Definition get_trace : M (list event) := fun _ st => (Ret (trace st), st).

Definition emit (e : event) : M unit := fun _ st =>
  (Ret tt, {| self := self st; heap := heap st;
              trace := trace st ++ [e]; constructed := constructed st |}).

Definition set_client (c : option Client) : M unit := fun _ st =>
  (Ret tt, {| self := {| component_key := component_key (self st);
                         _app_config := _app_config (self st);
                         _provider_defaults := _provider_defaults (self st);
                         _pipeline_defaults := _pipeline_defaults (self st);
                         _client := c |};
              heap := heap st; trace := trace st;
              constructed := constructed st |}).

(** [anthropic.Anthropic(api_key=api_key)] *)
Definition new_client (api_key : pyval) : M Client := fun _ st =>
  let c := {| client_serial := constructed st; client_api_key := api_key |} in
  (Ret c, {| self := self st; heap := heap st;
             trace := trace st ++ [EvNewClient c];
             constructed := S (constructed st) |}).

Definition deref (l : loc) : M dict := fun _ st =>
  match heap st !! l with
  | Some d => (Ret d, st)
  | None => (Fault, st)
  end.

(** A new dictionary object. *)
Definition alloc (d : dict) : M loc := fun _ st =>
  let l := fresh (dom (heap st)) in
  (Ret l, {| self := self st; heap := <[l := d]> (heap st);
             trace := trace st; constructed := constructed st |}).

(** In-place update of a dictionary object. *)
Definition modify (l : loc) (f : dict -> dict) : M unit := fun _ st =>
  match heap st !! l with
  | Some d => (Ret tt, {| self := self st; heap := <[l := f d]> (heap st);
                          trace := trace st; constructed := constructed st |})
  | None => (Fault, st)
  end.

(** [x or {}] for an optional dictionary reference [x]. *)
Definition or_empty_dict (x : option loc) : M loc :=
  match x with
  | None => alloc ∅
  | Some l =>
      d ← deref l;
      if decide (d = ∅) then alloc ∅ else mret l
  end.

(** [d[k]] *)
Definition subscript (d : dict) (k : string) : M pyval :=
  match d !! k with
  | Some v => mret v
  | None => raise (KeyError k)
  end.

(** ** Methods of [ClaudeLLMAdapter] *)

Definition msg_not_installed_warning : string :=
  "anthropic package not installed; Claude adapter will not run".
Definition msg_not_installed : string :=
  "anthropic package is not installed. Run `pip install anthropic`.".
Definition msg_api_key : string :=
  "Claude LLM requires an api_key (set CLAUDE_API_KEY or pipeline options.api_key)".

Definition start : M unit :=
  env ← get_env;
  if anthropic_installed env then
    s ← get_self;
    emit (EvLog LDebug "Claude LLM adapter initialized"
            [("component", VStr (component_key s))])
  else
    emit (EvLog LWarning msg_not_installed_warning []).

Definition stop : M unit := set_client None.

Definition open_call (call_id : string) (options : option loc) : M unit := mret tt.

Definition close_call (call_id : string) : M unit := mret tt.

Definition _build_client (api_key : pyval) : M Client :=
  env ← get_env;
  if anthropic_installed env then
    s ← get_self;
    match _client s with
    | None =>
        c ← new_client api_key;
        set_client (Some c);;
        mret c
    | Some c => mret c
    end
  else raise (RuntimeError msg_not_installed).

Definition _merge_options (runtime : option loc) : M loc :=
  s ← get_self;
  provider ← deref (_provider_defaults s);
  pipeline ← deref (_pipeline_defaults s);
  r ← or_empty_dict runtime;
  rt ← deref r;
  merged ← alloc (dict_display3 provider pipeline rt);
  modify merged (dict_setdefault "model" (VStr "claude-3-5-sonnet-20240620"));;
  modify merged (dict_setdefault "temperature" (VFloat float_0_6));;
  modify merged (dict_setdefault "max_tokens" (VInt 256));;
  mret merged.

(** [getattr(getattr(self._app_config, "llm", None), "prompt", None)] *)
Definition global_prompt (cfg : AppConfig) : pyval :=
  match llm cfg with
  | None => VNone
  | Some section => default VNone (prompt section)
  end.

(** [str.isspace] for one code point below 256. *)
Definition is_space (c : ascii) : bool :=
  let n := nat_of_ascii c in
  (((9 <=? n) && (n <=? 13)) || ((28 <=? n) && (n <=? 32))
   || (n =? 133) || (n =? 160))%nat.

Fixpoint lstrip (s : string) : string :=
  match s with
  | EmptyString => EmptyString
  | String c s' => if is_space c then lstrip s' else s
  end.

Fixpoint rstrip (s : string) : string :=
  match s with
  | EmptyString => EmptyString
  | String c s' =>
      match rstrip s' with
      | EmptyString => if is_space c then EmptyString else String c EmptyString
      | r => String c r
      end
  end.

(** [s.strip()] *)
Definition strip (s : string) : string := rstrip (lstrip s).

(** [getattr(block, "type", None) == "text"] *)
Definition is_text_block (b : ContentBlock) : bool :=
  match block_type b with
  | Some t => String.eqb t "text"
  | None => false
  end.

(** The loop over [resp.content] that fills [text_parts]. *)
Definition collect_text_parts (blocks : list ContentBlock) : list string :=
  fold_left
    (fun text_parts block =>
       if is_text_block block
       then text_parts ++ [default "" (block_text block)]
       else text_parts)
    blocks [].

(** ["".join(parts)] *)
Definition join_empty (parts : list string) : string :=
  fold_right String.append "" parts.

Definition generate (call_id transcript : string) (context options : option loc)
  : M LLMResponse :=
  opts ← or_empty_dict options;
  merged_ref ← _merge_options (Some opts);
  s ← get_self;
  merged ← deref merged_ref;
  provider ← deref (_provider_defaults s);
  let api_key := py_or (dict_get merged "api_key") (dict_get provider "api_key") in
  if negb (truthy api_key) then raise (RuntimeError msg_api_key) else
  client ← _build_client api_key;
  let system_prompt :=
    py_or (dict_get merged "system") (global_prompt (_app_config s)) in
  let messages := [] in
  let messages :=
    if truthy system_prompt
    then messages ++ [{| role := "system"; content := system_prompt |}]
    else messages in
  let messages := messages ++ [{| role := "user"; content := VStr transcript |}] in
  model ← subscript merged "model";
  let req := {| req_model := model;
                req_max_tokens := dict_get_default merged "max_tokens" (VInt 256);
                req_temperature :=
                  dict_get_default merged "temperature" (VFloat float_0_6);
                req_messages := messages |} in
  env ← get_env;
  history ← get_trace;
  emit (EvCreate client req);;
  match messages_create env history client req with
  | Failed err => raise (RemoteError err)
  | Replied resp =>
      let text_parts := collect_text_parts (default [] (reply_content resp)) in
      let text := strip (join_empty text_parts) in
      model ← subscript merged "model";
      emit (EvLog LDebug "Claude response"
              [("call_id", VStr call_id); ("model", model);
               ("preview", VStr (substring 0 80 text))]);;
      model ← subscript merged "model";
      mret {| text := text; tool_calls := []; metadata := {["model" := model]} |}
  end.

(** Assignment of every attribute of [self]. *)
Definition set_self (a : ClaudeLLMAdapter) : M unit := fun _ st =>
  (Ret tt, {| self := a; heap := heap st; trace := trace st;
              constructed := constructed st |}).

(** [ClaudeLLMAdapter(component_key, app_config, provider_config, options)] *)
Definition __init__ (key : string) (app_config : AppConfig)
    (provider_config options : option loc) : M unit :=
  provider ← or_empty_dict provider_config;
  pipeline ← or_empty_dict options;
  set_self {| component_key := key;
              _app_config := app_config;
              _provider_defaults := provider;
              _pipeline_defaults := pipeline;
              _client := None |}.

(** ** Sequences of calls on one adapter *)

Inductive call :=
| CallStart
| CallStop
| CallOpen (call_id : string) (options : option loc)
| CallClose (call_id : string)
| CallGenerate (call_id transcript : string) (context options : option loc).

Definition run_call (c : call) : M (option LLMResponse) :=
  match c with
  | CallStart => start;; mret None
  | CallStop => stop;; mret None
  | CallOpen call_id options => open_call call_id options;; mret None
  | CallClose call_id => close_call call_id;; mret None
  | CallGenerate call_id transcript context options =>
      r ← generate call_id transcript context options; mret (Some r)
  end.

(** The caller goes on after an exception: every call's outcome is kept. *)
Fixpoint run_calls (cs : list call) (env : Env) (st : State)
  : list (outcome (option LLMResponse)) * State :=
  match cs with
  | [] => ([], st)
  | c :: cs' =>
      let (o, st1) := run_call c env st in
      let (os, st2) := run_calls cs' env st1 in
      (o :: os, st2)
  end.

(** ** Observations on traces *)

Definition is_new_client (e : event) : bool :=
  match e with EvNewClient _ => true | _ => false end.

Definition sent_requests (tr : list event) : list Request :=
  omap (fun e => match e with EvCreate _ req => Some req | _ => None end) tr.

Definition count_new_clients (tr : list event) : nat :=
  length (filter (fun e => is_new_client e = true) tr).

(** ** Vocabulary of the statements *)

(** The dictionary that [x or {}] denotes in a store. *)
Definition referent (h : gmap loc dict) (x : option loc) : option dict :=
  match x with
  | None => Some ∅
  | Some l => h !! l
  end.

(** Every dictionary object of [st] is still there, unchanged, in [st']. *)
Definition heap_grows (st st' : State) : Prop :=
  ∀ l d, heap st !! l = Some d → heap st' !! l = Some d.

(** Only new dictionary objects tell [st'] from [st]. *)
Definition only_heap_grows (st st' : State) : Prop :=
  self st' = self st ∧ trace st' = trace st ∧
  constructed st' = constructed st ∧ heap_grows st st'.

(** The trace of [st'] continues the one of [st]. *)
Definition trace_extends (st st' : State) : Prop :=
  ∃ evs, trace st' = trace st ++ evs.

(** What a key of the merged options is when no layer has it. *)
Definition fallback (k : string) : option pyval :=
  if String.eqb k "model" then Some (VStr "claude-3-5-sonnet-20240620")
  else if String.eqb k "temperature" then Some (VFloat float_0_6)
  else if String.eqb k "max_tokens" then Some (VInt 256)
  else None.

(** The value of a key in the three layers, the runtime options first. *)
Definition layered (provider pipeline runtime : dict) (k : string) : option pyval :=
  match runtime !! k with
  | Some v => Some v
  | None =>
      match pipeline !! k with
      | Some v => Some v
      | None => provider !! k
      end
  end.

(** The dictionary [_merge_options] builds from the three layers. *)
Definition merged_options (provider pipeline runtime : dict) : dict :=
  dict_setdefault "max_tokens" (VInt 256)
    (dict_setdefault "temperature" (VFloat float_0_6)
       (dict_setdefault "model" (VStr "claude-3-5-sonnet-20240620")
          (dict_display3 provider pipeline runtime))).

(** The layers of the worked example. *)
Definition example_provider : dict :=
  <["api_key" := VStr "k1"]> (<["temperature" := VFloat float_0_2]> ∅).
Definition example_pipeline : dict := {["model" := VStr "m1"]}.
Definition example_runtime : dict := {["temperature" := VFloat float_0_9]}.
Definition example_merged : dict :=
  <["api_key" := VStr "k1"]> (<["temperature" := VFloat float_0_9]>
    (<["model" := VStr "m1"]> (<["max_tokens" := VInt 256]> ∅))).

(** Constructions so far, plus the one still allowed while no handle is held. *)
Definition client_budget (st : State) : nat :=
  count_new_clients (trace st) +
  match _client (self st) with Some _ => 0 | None => 1 end.

(** The attributes of the adapter that are assigned at construction only. *)
Definition same_wiring (st st' : State) : Prop :=
  component_key (self st') = component_key (self st) ∧
  _app_config (self st') = _app_config (self st) ∧
  _provider_defaults (self st') = _provider_defaults (self st) ∧
  _pipeline_defaults (self st') = _pipeline_defaults (self st).

(** What a call other than [stop] may do to the adapter and its world. *)
Definition adapter_step (st st' : State) : Prop :=
  heap_grows st st' ∧ trace_extends st st' ∧
  (client_budget st' ≤ client_budget st)%nat ∧
  (∀ c, _client (self st) = Some c → _client (self st') = Some c) ∧
  same_wiring st st'.

(** The credential [generate] resolves from the three layers. *)
Definition resolved_api_key (p pl r : dict) : pyval :=
  py_or (dict_get (merged_options p pl r) "api_key") (dict_get p "api_key").

(** The system prompt [generate] resolves. *)
Definition resolved_system_prompt (cfg : AppConfig) (p pl r : dict) : pyval :=
  py_or (dict_get (merged_options p pl r) "system") (global_prompt cfg).

Definition system_message (sp : pyval) : ChatMessage :=
  {| role := "system"; content := sp |}.

Definition user_message (transcript : string) : ChatMessage :=
  {| role := "user"; content := VStr transcript |}.

(** The request [generate] sends for a transcript and three layers. *)
Definition request_for (cfg : AppConfig) (p pl r : dict) (transcript : string)
  : Request :=
  let merged := merged_options p pl r in
  let sp := resolved_system_prompt cfg p pl r in
  {| req_model := dict_get merged "model";
     req_max_tokens := dict_get_default merged "max_tokens" (VInt 256);
     req_temperature := dict_get_default merged "temperature" (VFloat float_0_6);
     req_messages :=
       (if truthy sp then [system_message sp] else []) ++ [user_message transcript] |}.

(** The handle a call works with: the one held, or a new one for [key]. *)
Definition handle_for (st : State) (key : pyval) : Client :=
  match _client (self st) with
  | Some c => c
  | None => {| client_serial := constructed st; client_api_key := key |}
  end.

(** The construction event of a call, when no handle is held. *)
Definition construction (st : State) (key : pyval) : list event :=
  match _client (self st) with
  | Some _ => []
  | None => [EvNewClient (handle_for st key)]
  end.

(** The response [generate] makes of a reply. *)
Definition response_of (model : pyval) (resp : Reply) : LLMResponse :=
  {| text := strip (join_empty (collect_text_parts (default [] (reply_content resp))));
     tool_calls := [];
     metadata := {["model" := model]} |}.

(** The debug line [generate] logs after a reply. *)
Definition response_log (call_id : string) (model : pyval) (resp : Reply) : event :=
  EvLog LDebug "Claude response"
    [("call_id", VStr call_id); ("model", model);
     ("preview", VStr (substring 0 80 (text (response_of model resp))))].

(** Whitespace only. *)
Fixpoint all_space (s : string) : bool :=
  match s with
  | EmptyString => true
  | String c s' => is_space c && all_space s'
  end.

(** The first character is whitespace. *)
Definition head_space (s : string) : bool :=
  match s with
  | EmptyString => false
  | String c _ => is_space c
  end.

(** The last character is whitespace. *)
Fixpoint last_space (s : string) : bool :=
  match s with
  | EmptyString => false
  | String c EmptyString => is_space c
  | String _ s' => last_space s'
  end.

(** [t] is [s] without its leading and trailing whitespace. *)
Definition is_strip_of (s t : string) : Prop :=
  ∃ a b, s = (a +:+ t +:+ b)%string ∧ all_space a = true ∧ all_space b = true ∧
         head_space t = false ∧ last_space t = false.

(** [getattr(block, "text", "")] *)
Definition block_text_or_empty (b : ContentBlock) : string :=
  default "" (block_text b).

(** The text of a reply as the specification words it: the text-typed
    segments, in order, concatenated. *)
Definition spec_joined_text (blocks : list ContentBlock) : string :=
  String.concat ""
    (map block_text_or_empty (filter (fun b => is_text_block b = true) blocks)).

(** ** Concrete worlds *)

Definition example_reply : Reply :=
  {| reply_content :=
       Some [ {| block_type := Some "text"; block_text := Some "  Hello" |};
              {| block_type := Some "tool_use"; block_text := None |};
              {| block_type := Some "text"; block_text := Some ", world " |} ] |}.

Definition example_env : Env :=
  {| anthropic_installed := true;
     messages_create := fun _ _ _ => Replied example_reply |}.

Definition example_env_no_sdk : Env :=
  {| anthropic_installed := false;
     messages_create := fun _ _ _ => Failed "unreachable" |}.

(** An adapter over three dictionary objects at references 1, 2 and 3. *)
Definition world_of (cfg : AppConfig) (held : option Client) (p pl r : dict) : State :=
  {| self := {| component_key := "claude_llm";
                _app_config := cfg;
                _provider_defaults := 1;
                _pipeline_defaults := 2;
                _client := held |};
     heap := <[1%positive := p]> (<[2%positive := pl]> (<[3%positive := r]> ∅));
     trace := [];
     constructed := 0 |}.

Definition no_prompt : AppConfig := {| llm := None |}.

Definition example_state : State :=
  world_of no_prompt None example_provider example_pipeline example_runtime.

(** Runtime options that give an empty [system] prompt. *)
Definition empty_system_runtime : dict := {["system" := VStr ""]}.

Definition empty_system_state : State :=
  world_of no_prompt None example_provider example_pipeline empty_system_runtime.

(** Pipeline defaults that set [api_key] to the empty string. *)
Definition blank_key_pipeline : dict := <["api_key" := VStr ""]> example_pipeline.

Definition blank_key_state : State :=
  world_of no_prompt None example_provider blank_key_pipeline example_runtime.

(** A computation keeps a relation between the state before and after. *)
Definition preserves (R : State → State → Prop) {A} (m : M A) : Prop :=
  ∀ env st, R st (m env st).2.

(** ** Vocabulary of the further properties *)

Definition is_stop (c : call) : bool :=
  match c with CallStop => true | _ => false end.

(** The number of [stop]s in a sequence of calls. *)
Definition count_stops (cs : list call) : nat :=
  length (filter (fun c => is_stop c = true) cs).

(** [start], [open_call] and [close_call]. *)
Definition is_bracketing (c : call) : bool :=
  match c with
  | CallStart | CallOpen _ _ | CallClose _ => true
  | CallStop | CallGenerate _ _ _ _ => false
  end.

(** A text-typed segment. *)
Definition text_block (s : string) : ContentBlock :=
  {| block_type := Some "text"; block_text := Some s |}.

(** The option keys [generate] reads. *)
Definition recognised_keys : list string :=
  ["model"; "temperature"; "max_tokens"; "system"; "api_key"].

(** A service that is down. *)
Definition example_env_down : Env :=
  {| anthropic_installed := true;
     messages_create := fun _ _ _ => Failed "overloaded" |}.

(** A service that answers with whitespace and a tool call only. *)
Definition blank_reply : Reply :=
  {| reply_content :=
       Some [ text_block "  "; {| block_type := Some "tool_use"; block_text := None |};
              {| block_type := Some "text"; block_text := None |} ] |}.

Definition example_env_blank : Env :=
  {| anthropic_installed := true;
     messages_create := fun _ _ _ => Replied blank_reply |}.

(** Runtime options with a credential and a key [generate] does not read. *)
Definition keyed_runtime : dict :=
  <["api_key" := VStr "k2"]> (<["top_p" := VFloat float_0_9]> example_runtime).

Definition keyed_state : State :=
  world_of no_prompt None example_provider example_pipeline keyed_runtime.

(** [keyed_state] with a second options dictionary, at reference 4, that
    lacks the key [generate] does not read. *)
Definition two_options_state : State :=
  {| self := self keyed_state;
     heap := <[4%positive := delete "top_p" keyed_runtime]> (heap keyed_state);
     trace := [];
     constructed := 0 |}.

(** A log line. *)
Definition is_log (e : event) : bool :=
  match e with EvLog _ _ _ => true | _ => false end.

(** * Properties *)

(** ** Running the monad *)

Lemma run_bind_ret {A B} (m : M A) (f : A → M B) env st a st' :
  m env st = (Ret a, st') → (m ≫= f) env st = f a env st'.
Proof. intros E. unfold mbind, M_bind. by rewrite E. Qed.

Lemma run_bind_raise {A B} (m : M A) (f : A → M B) env st e st' :
  m env st = (Raise e, st') → (m ≫= f) env st = (Raise e, st').
Proof. intros E. unfold mbind, M_bind. by rewrite E. Qed.

Lemma run_bind_fault {A B} (m : M A) (f : A → M B) env st st' :
  m env st = (Fault, st') → (m ≫= f) env st = (Fault, st').
Proof. intros E. unfold mbind, M_bind. by rewrite E. Qed.

Lemma run_deref l d env st :
  heap st !! l = Some d → deref l env st = (Ret d, st).
Proof. intros E. unfold deref. by rewrite E. Qed.

Lemma preserves_ret R `{!Reflexive R} {A} (a : A) : preserves R (mret a).
Proof. intros env st. simpl. reflexivity. Qed.

Lemma preserves_raise R `{!Reflexive R} {A} e : preserves R (@raise A e).
Proof. intros env st. simpl. reflexivity. Qed.

Lemma preserves_bind R `{!Transitive R} {A B} (m : M A) (f : A → M B) :
  preserves R m → (∀ a, preserves R (f a)) → preserves R (m ≫= f).
Proof.
  intros Hm Hf env st. specialize (Hm env st).
  unfold mbind, M_bind. destruct (m env st) as [[a|e|] st1]; simpl in *; try done.
  etrans; [exact Hm | apply Hf].
Qed.

Lemma preserves_reader R `{!Reflexive R} {A} (g : Env → State → A) :
  preserves R (fun env st => (Ret (g env st), st)).
Proof. intros env st. simpl. reflexivity. Qed.

#[export] Instance heap_grows_preorder : PreOrder heap_grows.
Proof. split; [by intros st l d | intros a b c H1 H2 l d E; eauto]. Qed.

#[export] Instance only_heap_grows_preorder : PreOrder only_heap_grows.
Proof.
  split.
  - intros st. by repeat split.
  - intros a b c (S1 & T1 & C1 & H1) (S2 & T2 & C2 & H2).
    repeat split; [congruence .. | by etrans].
Qed.

#[export] Instance trace_extends_preorder : PreOrder trace_extends.
Proof.
  split.
  - intros st. exists []. by rewrite app_nil_r.
  - intros a b c [e1 E1] [e2 E2]. exists (e1 ++ e2).
    by rewrite E2, E1, app_assoc.
Qed.

(** ** The store *)

Lemma alloc_spec d env st :
  ∃ l st', alloc d env st = (Ret l, st') ∧ only_heap_grows st st' ∧
           heap st !! l = None ∧ heap st' = <[l := d]> (heap st).
Proof.
  eexists _, _. split; [reflexivity |].
  assert (heap st !! fresh (dom (heap st)) = None) as Hf
    by (apply not_elem_of_dom, is_fresh).
  repeat split; simpl; try done.
  intros l d' E. simpl. rewrite lookup_insert_ne; [done | congruence].
Qed.

Lemma or_empty_dict_spec x env st r :
  referent (heap st) x = Some r →
  ∃ l st', or_empty_dict x env st = (Ret l, st') ∧ only_heap_grows st st' ∧
           heap st' !! l = Some r.
Proof.
  intros Hr. destruct x as [l|]; simpl in *.
  - rewrite (run_bind_ret _ _ _ _ _ _ (run_deref _ _ env _ Hr)).
    destruct (decide (r = ∅)) as [->|Hne].
    + destruct (alloc_spec ∅ env st) as (l' & st' & E & G & _ & Hh).
      exists l', st'. split; [done |]. split; [done |].
    rewrite Hh. apply lookup_insert_eq.
    + exists l, st. split; [by destruct (decide (r = ∅)) |].
      split; [reflexivity | done].
  - injection Hr as <-.
    destruct (alloc_spec ∅ env st) as (l' & st' & E & G & _ & Hh).
    exists l', st'. split; [done |]. split; [done |].
    rewrite Hh. apply lookup_insert_eq.
Qed.

Lemma alloc_grows d : preserves only_heap_grows (alloc d).
Proof.
  intros env st. destruct (alloc_spec d env st) as (l & st' & E & G & _).
  by rewrite E.
Qed.

Lemma deref_same R `{!Reflexive R} l : preserves R (deref l).
Proof. intros env st. unfold deref. destruct (heap st !! l); simpl; reflexivity. Qed.

Lemma or_empty_dict_grows x : preserves only_heap_grows (or_empty_dict x).
Proof.
  destruct x as [l|]; unfold or_empty_dict; [| apply alloc_grows].
  apply preserves_bind; [apply _ | apply deref_same, _ |].
  intros d. destruct (decide (d = ∅)); [apply alloc_grows | apply preserves_ret, _].
Qed.

Lemma modify_spec l f d env st :
  heap st !! l = Some d →
  ∃ st', modify l f env st = (Ret tt, st') ∧ self st' = self st ∧
         trace st' = trace st ∧ constructed st' = constructed st ∧
         heap st' = <[l := f d]> (heap st).
Proof. intros E. unfold modify. rewrite E. by eexists. Qed.

(** ** Option merging *)

Lemma lookup_setdefault k v (d : dict) k' :
  dict_setdefault k v d !! k' =
  match d !! k' with
  | Some x => Some x
  | None => if decide (k = k') then Some v else None
  end.
Proof.
  unfold dict_setdefault. destruct (d !! k) as [x|] eqn:E.
  - destruct (d !! k') eqn:E'; [done |]. case_decide; [congruence | done].
  - rewrite lookup_insert. case_decide as Hk.
    + subst. by rewrite E.
    + by destruct (d !! k').
Qed.

Lemma lookup_display3 (a b c : dict) k : dict_display3 a b c !! k = layered a b c k.
Proof.
  unfold dict_display3, layered. rewrite !lookup_union.
  destruct (c !! k), (b !! k), (a !! k); done.
Qed.

Lemma lookup_merged_options p pl r k :
  merged_options p pl r !! k =
  match layered p pl r k with
  | Some v => Some v
  | None => fallback k
  end.
Proof.
  unfold merged_options. rewrite !lookup_setdefault, lookup_display3.
  destruct (layered p pl r k); [done |]. unfold fallback.
  repeat case_decide; subst; try done.
  rewrite !(proj2 (String.eqb_neq _ _)); done.
Qed.

Lemma example_merged_options :
  merged_options example_provider example_pipeline example_runtime = example_merged.
Proof. vm_compute. reflexivity. Qed.

Lemma _merge_options_spec runtime env st p pl r :
  heap st !! _provider_defaults (self st) = Some p →
  heap st !! _pipeline_defaults (self st) = Some pl →
  referent (heap st) runtime = Some r →
  ∃ l st', _merge_options runtime env st = (Ret l, st') ∧
           only_heap_grows st st' ∧ heap st !! l = None ∧
           heap st' !! l = Some (merged_options p pl r).
Proof.
  intros Hp Hpl Hr. unfold _merge_options.
  rewrite (run_bind_ret get_self _ env st (self st) st eq_refl).
  rewrite (run_bind_ret _ _ _ _ _ _ (run_deref _ _ env _ Hp)).
  rewrite (run_bind_ret _ _ _ _ _ _ (run_deref _ _ env _ Hpl)).
  destruct (or_empty_dict_spec runtime env st r Hr) as (l1 & st1 & E1 & G1 & L1).
  rewrite (run_bind_ret _ _ _ _ _ _ E1).
  rewrite (run_bind_ret _ _ _ _ _ _ (run_deref _ _ env _ L1)).
  destruct (alloc_spec (dict_display3 p pl r) env st1)
    as (l & st2 & E2 & G2 & F2 & H2).
  rewrite (run_bind_ret _ _ _ _ _ _ E2).
  assert (heap st2 !! l = Some (dict_display3 p pl r)) as L2
    by (rewrite H2; apply lookup_insert_eq).
  destruct (modify_spec l (dict_setdefault "model" (VStr "claude-3-5-sonnet-20240620"))
              _ env st2 L2) as (st3 & E3 & S3 & T3 & C3 & H3).
  rewrite (run_bind_ret _ _ _ _ _ _ E3).
  assert (heap st3 !! l = Some (dict_setdefault "model"
            (VStr "claude-3-5-sonnet-20240620") (dict_display3 p pl r))) as L3
    by (rewrite H3; apply lookup_insert_eq).
  destruct (modify_spec l (dict_setdefault "temperature" (VFloat float_0_6))
              _ env st3 L3) as (st4 & E4 & S4 & T4 & C4 & H4).
  rewrite (run_bind_ret _ _ _ _ _ _ E4).
  assert (heap st4 !! l = Some (dict_setdefault "temperature" (VFloat float_0_6)
            (dict_setdefault "model" (VStr "claude-3-5-sonnet-20240620")
               (dict_display3 p pl r)))) as L4
    by (rewrite H4; apply lookup_insert_eq).
  destruct (modify_spec l (dict_setdefault "max_tokens" (VInt 256))
              _ env st4 L4) as (st5 & E5 & S5 & T5 & C5 & H5).
  rewrite (run_bind_ret _ _ _ _ _ _ E5).
  exists l, st5. split; [reflexivity |].
  destruct G1 as (S1 & T1 & C1 & G1), G2 as (S2 & T2 & C2 & G2).
  split; [| split].
  - repeat split; [congruence .. |].
    intros l' d E. rewrite H5, H4, H3.
    assert (l ≠ l') as Hne by (intros ->; apply G1 in E; congruence).
    rewrite !lookup_insert_ne by done. by apply G2, G1.
  - destruct (heap st !! l) as [d|] eqn:E; [| done].
    apply G1 in E. congruence.
  - rewrite H5. apply lookup_insert_eq.
Qed.

Lemma _merge_options_grows runtime : preserves only_heap_grows (_merge_options runtime).
Proof.
  intros env st.
  destruct (heap st !! _provider_defaults (self st)) as [p|] eqn:Hp;
    [destruct (heap st !! _pipeline_defaults (self st)) as [pl|] eqn:Hpl;
       [destruct (referent (heap st) runtime) as [r|] eqn:Hr |] |].
  - destruct (_merge_options_spec runtime env st p pl r Hp Hpl Hr)
      as (l & st' & E & G & _). by rewrite E.
  - destruct runtime as [l|]; [| done]. simpl in Hr.
    unfold _merge_options, or_empty_dict, mbind, M_bind, get_self, deref.
    rewrite Hp, Hpl, Hr. reflexivity.
  - unfold _merge_options, mbind, M_bind, get_self, deref.
    rewrite Hp, Hpl. reflexivity.
  - unfold _merge_options, mbind, M_bind, get_self, deref.
    rewrite Hp. reflexivity.
Qed.

(** ** Steps of the adapter *)

#[export] Instance same_wiring_preorder : PreOrder same_wiring.
Proof.
  split.
  - intros st. by repeat split.
  - intros a b c (A1 & B1 & C1 & D1) (A2 & B2 & C2 & D2).
    repeat split; congruence.
Qed.

#[export] Instance adapter_step_preorder : PreOrder adapter_step.
Proof.
  split.
  - intros st. split; [reflexivity |]. split; [reflexivity |].
    split; [lia |]. split; [done | reflexivity].
  - intros a b c (H1 & T1 & B1 & K1 & W1) (H2 & T2 & B2 & K2 & W2).
    split; [by etrans |]. split; [by etrans |].
    split; [lia |]. split; [eauto | by etrans].
Qed.

Lemma preserves_weaken (R R' : State → State → Prop) {A} (m : M A) :
  (∀ st st', R st st' → R' st st') → preserves R m → preserves R' m.
Proof. intros HR Hm env st. apply HR, Hm. Qed.

Lemma only_heap_grows_step st st' : only_heap_grows st st' → adapter_step st st'.
Proof.
  intros (S & T & C & H). unfold adapter_step, trace_extends, client_budget,
    same_wiring.
  rewrite S, T. split; [done |]. split; [exists []; by rewrite app_nil_r |].
  split; [lia |]. by repeat split.
Qed.

Lemma count_new_clients_app tr1 tr2 :
  count_new_clients (tr1 ++ tr2) = count_new_clients tr1 + count_new_clients tr2.
Proof. unfold count_new_clients. by rewrite filter_app, length_app. Qed.

Lemma emit_step e : is_new_client e = false → preserves adapter_step (emit e).
Proof.
  intros He env st. unfold adapter_step, trace_extends, client_budget. simpl.
  rewrite count_new_clients_app. unfold count_new_clients at 2.
  rewrite filter_cons_False by (rewrite He; done). simpl.
  split; [by intros ? ? |]. split; [by eexists |]. split; [lia |].
  by repeat split.
Qed.

Lemma _build_client_step api_key : preserves adapter_step (_build_client api_key).
Proof.
  intros env st. unfold _build_client, mbind, M_bind, get_env, get_self.
  destruct (anthropic_installed env); [| reflexivity].
  destruct (_client (self st)) as [c|] eqn:Hc; [reflexivity |].
  unfold adapter_step, trace_extends, client_budget. simpl.
  rewrite Hc, count_new_clients_app. unfold count_new_clients at 2.
  rewrite filter_cons_True by done. simpl.
  split; [by intros ? ? |]. split; [by eexists |]. split; [lia |].
  by repeat split.
Qed.

Lemma subscript_step R `{!Reflexive R} d k : preserves R (subscript d k).
Proof.
  unfold subscript. destruct (d !! k); [apply preserves_ret | apply preserves_raise]; done.
Qed.

Ltac preserves_step :=
  first
    [ apply preserves_ret; apply _
    | apply preserves_raise; apply _
    | apply subscript_step; apply _
    | apply deref_same; apply _
    | apply preserves_reader; apply _
    | apply _build_client_step
    | apply emit_step; reflexivity
    | apply (preserves_weaken _ _ _ only_heap_grows_step);
      first [apply or_empty_dict_grows | apply _merge_options_grows]
    | apply preserves_bind; [apply _ | | intros ?]
    | match goal with
      | |- preserves _ (if ?b then _ else _) => destruct b
      | |- preserves _ (match ?x with _ => _ end) => destruct x
      end
    | progress cbv zeta ].

Lemma generate_step call_id transcript context options :
  preserves adapter_step (generate call_id transcript context options).
Proof. unfold generate, get_env, get_self, get_trace. repeat preserves_step. Qed.

Lemma start_step : preserves adapter_step start.
Proof. unfold start, get_env, get_self. repeat preserves_step. Qed.

Lemma run_call_step c : c ≠ CallStop → preserves adapter_step (run_call c).
Proof.
  intros Hc. destruct c; simpl; [| done | ..];
    unfold open_call, close_call;
    first [ apply preserves_bind; [apply _ | | intros ?]; repeat preserves_step ];
    first [ apply start_step | apply generate_step | idtac ].
Qed.

Lemma run_calls_step cs env st :
  CallStop ∉ cs → adapter_step st (run_calls cs env st).2.
Proof.
  revert st. induction cs as [|c cs IH]; intros st Hcs; simpl; [reflexivity |].
  apply not_elem_of_cons in Hcs as [Hc Hcs].
  pose proof (run_call_step c (not_eq_sym Hc) env st) as H1.
  destruct (run_call c env st) as [o st1]. specialize (IH st1 Hcs).
  destruct (run_calls cs env st1) as [os st2]. simpl in *. by etrans.
Qed.

(** ** Running [generate] on valid references *)

Lemma merged_options_model p pl r :
  merged_options p pl r !! "model" = Some (dict_get (merged_options p pl r) "model").
Proof.
  unfold dict_get. rewrite lookup_merged_options.
  destruct (layered p pl r "model"); reflexivity.
Qed.

Lemma run_subscript d k v env st :
  d !! k = Some v → subscript d k env st = (Ret v, st).
Proof. intros E. unfold subscript. by rewrite E. Qed.

Lemma generate_prelude options env st p pl r :
  heap st !! _provider_defaults (self st) = Some p →
  heap st !! _pipeline_defaults (self st) = Some pl →
  referent (heap st) options = Some r →
  ∃ l1 st1 l2 st2,
    or_empty_dict options env st = (Ret l1, st1) ∧
    _merge_options (Some l1) env st1 = (Ret l2, st2) ∧
    only_heap_grows st st2 ∧
    heap st2 !! l2 = Some (merged_options p pl r) ∧
    heap st2 !! _provider_defaults (self st2) = Some p.
Proof.
  intros Hp Hpl Hr.
  destruct (or_empty_dict_spec options env st r Hr) as (l1 & st1 & E1 & G1 & L1).
  pose proof G1 as (S1 & _ & _ & H1).
  assert (heap st1 !! _provider_defaults (self st1) = Some p) as Hp1
    by (rewrite S1; by apply H1).
  assert (heap st1 !! _pipeline_defaults (self st1) = Some pl) as Hpl1
    by (rewrite S1; by apply H1).
  destruct (_merge_options_spec (Some l1) env st1 p pl r Hp1 Hpl1 L1)
    as (l2 & st2 & E2 & G2 & _ & L2).
  exists l1, st1, l2, st2.
  split; [done |]. split; [done |]. split; [by etrans |]. split; [done |].
  destruct G2 as (S2 & _ & _ & H2). rewrite S2. by apply H2.
Qed.

Lemma run_build_client_missing key env st :
  anthropic_installed env = false →
  _build_client key env st = (Raise (RuntimeError msg_not_installed), st).
Proof. intros E. unfold _build_client, mbind, M_bind, get_env. by rewrite E. Qed.

Lemma run_build_client key env st :
  anthropic_installed env = true →
  ∃ st', _build_client key env st = (Ret (handle_for st key), st') ∧
         _client (self st') = Some (handle_for st key) ∧
         trace st' = trace st ++ construction st key ∧
         heap st' = heap st.
Proof.
  intros E. unfold _build_client, mbind, M_bind, get_env, get_self.
  rewrite E. unfold construction, handle_for.
  destruct (_client (self st)) as [c|] eqn:Hc.
  - exists st. by rewrite app_nil_r.
  - eexists. split; [reflexivity |]. simpl. done.
Qed.

Lemma handle_for_stable st st' key :
  self st' = self st → constructed st' = constructed st →
  handle_for st' key = handle_for st key ∧
  construction st' key = construction st key.
Proof. intros S C. unfold construction, handle_for. by rewrite S, C. Qed.

Lemma generate_valid call_id transcript context options env st p pl r :
  heap st !! _provider_defaults (self st) = Some p →
  heap st !! _pipeline_defaults (self st) = Some pl →
  referent (heap st) options = Some r →
  let key := resolved_api_key p pl r in
  let req := request_for (_app_config (self st)) p pl r transcript in
  let c := handle_for st key in
  let model := dict_get (merged_options p pl r) "model" in
  ∃ o st',
    generate call_id transcript context options env st = (o, st') ∧
    heap_grows st st' ∧
    if negb (truthy key) then
      o = Raise (RuntimeError msg_api_key) ∧ only_heap_grows st st'
    else if negb (anthropic_installed env) then
      o = Raise (RuntimeError msg_not_installed) ∧ only_heap_grows st st'
    else
      _client (self st') = Some c ∧
      match messages_create env (trace st ++ construction st key) c req with
      | Failed err =>
          o = Raise (RemoteError err) ∧
          trace st' = trace st ++ construction st key ++ [EvCreate c req]
      | Replied resp =>
          o = Ret (response_of model resp) ∧
          trace st' = trace st ++ construction st key ++
                      [EvCreate c req; response_log call_id model resp]
      end.
Proof.
  intros Hp Hpl Hr key req c model.
  destruct (generate_prelude options env st p pl r Hp Hpl Hr)
    as (l1 & st1 & l2 & st2 & E1 & E2 & G & L2 & Hp2).
  pose proof G as (S2 & T2 & C2 & H2).
  unfold generate.
  rewrite (run_bind_ret _ _ _ _ _ _ E1), (run_bind_ret _ _ _ _ _ _ E2).
  rewrite (run_bind_ret get_self _ env st2 (self st2) st2 eq_refl).
  rewrite (run_bind_ret _ _ _ _ _ _ (run_deref _ _ env _ L2)).
  rewrite (run_bind_ret _ _ _ _ _ _ (run_deref _ _ env _ Hp2)).
  cbv zeta. rewrite S2.
  change (py_or (dict_get (merged_options p pl r) "api_key") (dict_get p "api_key"))
    with key.
  destruct (truthy key) eqn:Hkey; cbn [negb].
  2: { eexists _, st2. split; [reflexivity |]. done. }
  destruct (anthropic_installed env) eqn:Hinst; cbn [negb].
  2: { rewrite (run_bind_raise _ _ _ _ _ _ (run_build_client_missing key env st2 Hinst)).
       eexists _, st2. split; [reflexivity |]. done. }
  destruct (run_build_client key env st2 Hinst) as (st3 & E3 & K3 & T3 & H3).
  destruct (handle_for_stable st st2 key S2 C2) as [Hh Hcons].
  rewrite Hh in E3, K3. rewrite Hcons, T2 in T3. fold c in E3, K3.
  rewrite (run_bind_ret _ _ _ _ _ _ E3).
  rewrite (run_bind_ret _ _ _ _ _ _
             (run_subscript _ _ _ env st3 (merged_options_model p pl r))).
  rewrite (run_bind_ret get_env _ env st3 env st3 eq_refl).
  rewrite (run_bind_ret get_trace _ env st3 (trace st3) st3 eq_refl).
  rewrite T3.
  change (Build_Request _ _ _ _) with req.
  rewrite (run_bind_ret (emit _) _ env st3 tt _ eq_refl).
  destruct (messages_create env (trace st ++ construction st key) c req)
    as [resp|err].
  - rewrite (run_bind_ret _ _ _ _ _ _
               (run_subscript _ _ _ env _ (merged_options_model p pl r))).
    rewrite (run_bind_ret (emit _) _ env _ tt _ eq_refl).
    rewrite (run_bind_ret _ _ _ _ _ _
               (run_subscript _ _ _ env _ (merged_options_model p pl r))).
    eexists _, _. split; [reflexivity |]. simpl.
    split; [| split; [done |]; split; [reflexivity |]].
    + intros l d E. simpl. rewrite H3. by apply H2.
    + rewrite T3, <- !app_assoc. reflexivity.
  - eexists _, _. split; [reflexivity |]. simpl.
    split; [| split; [done |]; split; [reflexivity |]].
    + intros l d E. simpl. rewrite H3. by apply H2.
    + rewrite T3, <- !app_assoc. reflexivity.
Qed.

(** ** Text normalisation *)

Lemma append_cons c (a t : string) :
  (String c a +:+ t)%string = String c (a +:+ t)%string.
Proof. reflexivity. Qed.

Lemma append_empty_l (t : string) : ("" +:+ t)%string = t.
Proof. reflexivity. Qed.

Lemma append_empty_r (t : string) : (t +:+ "")%string = t.
Proof. induction t as [|c t IH]; [done |]. by rewrite append_cons, IH. Qed.

Lemma lstrip_spec s :
  ∃ a, s = (a +:+ lstrip s)%string ∧ all_space a = true ∧
       head_space (lstrip s) = false.
Proof.
  induction s as [|c s (a & E & A & H)].
  - by exists "".
  - cbn [lstrip]. destruct (is_space c) eqn:Hc.
    + exists (String c a). rewrite append_cons, <- E.
      split; [done |]. split; [cbn [all_space]; by rewrite Hc, A | done].
    + exists "". rewrite append_empty_l. split; [done |]. split; [done |].
      cbn [head_space]. done.
Qed.

Lemma rstrip_spec s :
  ∃ b, s = (rstrip s +:+ b)%string ∧ all_space b = true ∧
       last_space (rstrip s) = false.
Proof.
  induction s as [|c s (b & E & B & L)].
  - by exists "".
  - cbn [rstrip]. destruct (rstrip s) as [|c2 r2] eqn:Hr.
    + rewrite append_empty_l in E. subst b. destruct (is_space c) eqn:Hc.
      * exists (String c s). rewrite append_empty_l.
        split; [done |]. split; [cbn [all_space]; by rewrite Hc, B | done].
      * exists s. rewrite append_cons, append_empty_l.
        split; [done |]. split; [done |]. cbn [last_space]. done.
    + exists b. rewrite append_cons, <- E. done.
Qed.

Lemma rstrip_head s : head_space s = false → head_space (rstrip s) = false.
Proof.
  destruct s as [|c s]; [done |]. simpl. intros Hc.
  destruct (rstrip s); [by rewrite Hc | done].
Qed.

Lemma strip_spec s : is_strip_of s (strip s).
Proof.
  destruct (lstrip_spec s) as (a & Ea & A & H).
  destruct (rstrip_spec (lstrip s)) as (b & Eb & B & L).
  exists a, b. unfold strip. rewrite <- Eb. repeat split; try done.
  by apply rstrip_head.
Qed.

Lemma collect_text_parts_filter blocks :
  collect_text_parts blocks =
  map block_text_or_empty (filter (fun b => is_text_block b = true) blocks).
Proof.
  unfold collect_text_parts.
  enough (∀ acc, fold_left
            (fun text_parts block =>
               if is_text_block block
               then text_parts ++ [default "" (block_text block)]
               else text_parts) blocks acc =
          acc ++ map block_text_or_empty
                   (filter (fun b => is_text_block b = true) blocks)) as H
    by apply (H []).
  induction blocks as [|b blocks IH]; intros acc; simpl.
  - by rewrite app_nil_r.
  - rewrite IH. destruct (is_text_block b) eqn:Hb.
    + rewrite filter_cons_True by done. simpl. by rewrite <- app_assoc.
    + rewrite filter_cons_False by (rewrite Hb; done). done.
Qed.

Lemma join_empty_concat parts : join_empty parts = String.concat "" parts.
Proof.
  unfold join_empty. induction parts as [|x xs IH]; [done |].
  cbn [fold_right]. rewrite IH. destruct xs; [| done]. cbn [concat]. apply append_empty_r.
Qed.

Lemma response_text model resp :
  text (response_of model resp) =
  strip (spec_joined_text (default [] (reply_content resp))).
Proof.
  unfold response_of, spec_joined_text. simpl.
  by rewrite collect_text_parts_filter, join_empty_concat.
Qed.

(** * The claims *)

(** C1. [_merge_options] builds a new dictionary in which every key has the
    value of the highest layer that has it (runtime options over pipeline
    defaults over provider defaults); [model], [temperature] and [max_tokens]
    get ["claude-3-5-sonnet-20240620"], [0.6] and [256] only when no layer has
    them, and no other key is added. For the layers
    [{api_key: "k1", temperature: 0.2}], [{model: "m1"}] and
    [{temperature: 0.9}] the result is
    [{api_key: "k1", temperature: 0.9, model: "m1", max_tokens: 256}]. *)
Theorem merge_options_layered runtime env st p pl r :
  heap st !! _provider_defaults (self st) = Some p →
  heap st !! _pipeline_defaults (self st) = Some pl →
  referent (heap st) runtime = Some r →
  ∃ l st' merged,
    _merge_options runtime env st = (Ret l, st') ∧
    heap st' !! l = Some merged ∧
    (∀ k, merged !! k =
          match r !! k with
          | Some v => Some v
          | None =>
              match pl !! k with
              | Some v => Some v
              | None =>
                  match p !! k with
                  | Some v => Some v
                  | None => fallback k
                  end
              end
          end) ∧
    (p = example_provider → pl = example_pipeline → r = example_runtime →
     merged = example_merged).
Proof.
  intros Hp Hpl Hr.
  destruct (_merge_options_spec runtime env st p pl r Hp Hpl Hr)
    as (l & st' & E & _ & _ & L).
  exists l, st', (merged_options p pl r). split; [done |]. split; [done |]. split.
  - intros k. rewrite lookup_merged_options. unfold layered.
    destruct (r !! k); [done |]. destruct (pl !! k); [done |]. by destruct (p !! k).
  - intros -> -> ->. apply example_merged_options.
Qed.

Lemma merge_options_layered_witness :
  ∃ l st' merged,
    _merge_options (Some 3%positive) example_env example_state = (Ret l, st') ∧
    heap st' !! l = Some merged ∧
    (∀ k, merged !! k =
          match example_runtime !! k with
          | Some v => Some v
          | None =>
              match example_pipeline !! k with
              | Some v => Some v
              | None =>
                  match example_provider !! k with
                  | Some v => Some v
                  | None => fallback k
                  end
              end
          end) ∧
    (example_provider = example_provider → example_pipeline = example_pipeline →
     example_runtime = example_runtime → merged = example_merged).
Proof.
  apply (merge_options_layered (Some 3%positive) example_env example_state
           example_provider example_pipeline example_runtime); reflexivity.
Defined.

Lemma resolved_api_key_absent p pl r :
  p !! "api_key" = None → pl !! "api_key" = None → r !! "api_key" = None →
  resolved_api_key p pl r = VNone.
Proof.
  intros Hp Hpl Hr. unfold resolved_api_key, dict_get.
  rewrite lookup_merged_options. unfold layered. by rewrite Hr, Hpl, Hp.
Qed.

(** C2. With no [api_key] in the provider defaults, the pipeline defaults
    or the runtime options, [generate] raises the [RuntimeError] about the
    missing api_key; nothing was logged, no client was constructed, no remote
    call was made and the adapter is as before. *)
Theorem generate_without_api_key call_id transcript context options env st p pl r :
  heap st !! _provider_defaults (self st) = Some p →
  heap st !! _pipeline_defaults (self st) = Some pl →
  referent (heap st) options = Some r →
  p !! "api_key" = None → pl !! "api_key" = None → r !! "api_key" = None →
  ∃ st',
    generate call_id transcript context options env st =
      (Raise (RuntimeError msg_api_key), st') ∧
    trace st' = trace st ∧ self st' = self st ∧
    constructed st' = constructed st ∧
    String.index 0 "api_key" msg_api_key = Some 23.
Proof.
  intros Hp Hpl Hr Kp Kpl Kr.
  destruct (generate_valid call_id transcript context options env st p pl r
              Hp Hpl Hr) as (o & st' & E & _ & Hcase).
  cbv zeta in Hcase. rewrite (resolved_api_key_absent p pl r Kp Kpl Kr) in Hcase.
  cbn [truthy negb] in Hcase. destruct Hcase as (-> & S & T & C & _).
  exists st'. by repeat split.
Qed.

Lemma generate_without_api_key_witness :
  ∃ st',
    generate "call-1" "hello" None (Some 3%positive) example_env
      (world_of no_prompt None example_runtime example_pipeline example_runtime) =
      (Raise (RuntimeError msg_api_key), st') ∧
    trace st' = [] ∧
    self st' = self (world_of no_prompt None example_runtime example_pipeline
                       example_runtime) ∧
    constructed st' = 0 ∧
    String.index 0 "api_key" msg_api_key = Some 23.
Proof.
  apply (generate_without_api_key "call-1" "hello" None (Some 3%positive)
           example_env
           (world_of no_prompt None example_runtime example_pipeline example_runtime)
           example_runtime example_pipeline example_runtime); reflexivity.
Defined.

Lemma sent_requests_app tr1 tr2 :
  sent_requests (tr1 ++ tr2) = sent_requests tr1 ++ sent_requests tr2.
Proof. apply omap_app. Qed.

Lemma sent_requests_construction st key : sent_requests (construction st key) = [].
Proof. unfold construction. by destruct (_client (self st)). Qed.

(** What a call that resolves a credential, with the SDK installed, sends. *)
Lemma generate_sends call_id transcript context options env st p pl r :
  heap st !! _provider_defaults (self st) = Some p →
  heap st !! _pipeline_defaults (self st) = Some pl →
  referent (heap st) options = Some r →
  truthy (resolved_api_key p pl r) = true →
  anthropic_installed env = true →
  ∃ o st',
    generate call_id transcript context options env st = (o, st') ∧
    sent_requests (trace st') =
      sent_requests (trace st) ++
      [request_for (_app_config (self st)) p pl r transcript].
Proof.
  intros Hp Hpl Hr Hkey Hinst.
  destruct (generate_valid call_id transcript context options env st p pl r
              Hp Hpl Hr) as (o & st' & E & _ & Hcase).
  cbv zeta in Hcase. rewrite Hkey, Hinst in Hcase. cbn [negb] in Hcase.
  destruct Hcase as [_ Hcase]. exists o, st'. split; [done |].
  destruct (messages_create _ _ _ _); destruct Hcase as [_ ->];
    rewrite !sent_requests_app, sent_requests_construction; reflexivity.
Qed.

(** C3, amended. A call that gets as far as the request sends exactly one
    request. Its messages are a system-role entry with the resolved system
    prompt followed by the user-role transcript when the [system] option of
    the merged options is truthy or, that failing, the configured
    [llm.prompt] is truthy; they are the user-role transcript alone
    otherwise, and so whenever no [system] option is given and no global
    prompt is configured. *)
Theorem generate_messages call_id transcript context options env st p pl r :
  heap st !! _provider_defaults (self st) = Some p →
  heap st !! _pipeline_defaults (self st) = Some pl →
  referent (heap st) options = Some r →
  truthy (resolved_api_key p pl r) = true →
  anthropic_installed env = true →
  let system := dict_get (merged_options p pl r) "system" in
  let global := global_prompt (_app_config (self st)) in
  ∃ o st' req,
    generate call_id transcript context options env st = (o, st') ∧
    sent_requests (trace st') = sent_requests (trace st) ++ [req] ∧
    (truthy system = true →
     req_messages req = [system_message system; user_message transcript]) ∧
    (truthy system = false → truthy global = true →
     req_messages req = [system_message global; user_message transcript]) ∧
    (truthy system = false → truthy global = false →
     req_messages req = [user_message transcript]) ∧
    (merged_options p pl r !! "system" = None → global = VNone →
     req_messages req = [user_message transcript]).
Proof.
  intros Hp Hpl Hr Hkey Hinst system global.
  destruct (generate_sends call_id transcript context options env st p pl r
              Hp Hpl Hr Hkey Hinst) as (o & st' & E & Hsent).
  exists o, st', (request_for (_app_config (self st)) p pl r transcript).
  split; [done |]. split; [done |].
  unfold request_for, resolved_system_prompt, py_or. cbn [req_messages].
  fold system global.
  assert (∀ sys : pyval,
            truthy sys = false → truthy global = false →
            (if truthy (if truthy sys then sys else global)
             then [system_message (if truthy sys then sys else global)]
             else []) ++ [user_message transcript] = [user_message transcript])
    as Hplain by (intros sys Hs Hg; by rewrite Hs, Hg).
  repeat split.
  - intros Hs. by rewrite Hs, Hs.
  - intros Hs Hg. by rewrite Hs, Hg.
  - apply Hplain.
  - intros Hnone Hg. apply Hplain; [| by rewrite Hg].
    unfold system, dict_get. by rewrite Hnone.
Qed.

Lemma generate_messages_witness :
  ∃ o st' req,
    generate "call-1" "hello" None (Some 3%positive) example_env example_state
      = (o, st') ∧
    sent_requests (trace st') = [] ++ [req] ∧
    (truthy VNone = true →
     req_messages req = [system_message VNone; user_message "hello"]) ∧
    (truthy VNone = false → truthy VNone = true →
     req_messages req = [system_message VNone; user_message "hello"]) ∧
    (truthy VNone = false → truthy VNone = false →
     req_messages req = [user_message "hello"]) ∧
    (merged_options example_provider example_pipeline example_runtime !! "system"
       = None →
     VNone = VNone → req_messages req = [user_message "hello"]).
Proof.
  apply (generate_messages "call-1" "hello" None (Some 3%positive) example_env
           example_state example_provider example_pipeline example_runtime);
    reflexivity.
Defined.

(** C3 as stated fails: with [system] present in the merged options as the
    empty string and no global prompt, the request has one message, the
    user-role transcript, and no system-role entry. *)
Lemma system_option_present_one_message :
  merged_options example_provider example_pipeline empty_system_runtime !! "system"
    = Some (VStr "") ∧
  map req_messages
    (sent_requests
       (trace (generate "call-1" "hello" None (Some 3%positive) example_env
                 empty_system_state).2))
    = [[user_message "hello"]].
Proof. split; vm_compute; reflexivity. Qed.

(** C4. When the remote call answers with a reply, [generate] returns a
    response whose text is the concatenation, in order, of the text of
    exactly the text-typed segments of the reply without its leading and
    trailing whitespace, whose tool-call list is empty and whose metadata
    is the [model] entry of the merged options. *)
Theorem generate_normalises_reply
    call_id transcript context options env st p pl r resp :
  heap st !! _provider_defaults (self st) = Some p →
  heap st !! _pipeline_defaults (self st) = Some pl →
  referent (heap st) options = Some r →
  truthy (resolved_api_key p pl r) = true →
  anthropic_installed env = true →
  messages_create env
    (trace st ++ construction st (resolved_api_key p pl r))
    (handle_for st (resolved_api_key p pl r))
    (request_for (_app_config (self st)) p pl r transcript) = Replied resp →
  ∃ response st' model,
    generate call_id transcript context options env st = (Ret response, st') ∧
    text response = strip (spec_joined_text (default [] (reply_content resp))) ∧
    is_strip_of (spec_joined_text (default [] (reply_content resp))) (text response) ∧
    tool_calls response = [] ∧
    merged_options p pl r !! "model" = Some model ∧
    metadata response = {["model" := model]}.
Proof.
  intros Hp Hpl Hr Hkey Hinst Hreply.
  destruct (generate_valid call_id transcript context options env st p pl r
              Hp Hpl Hr) as (o & st' & E & _ & Hcase).
  cbv zeta in Hcase. rewrite Hkey, Hinst in Hcase. cbn [negb] in Hcase.
  rewrite Hreply in Hcase. destruct Hcase as (_ & -> & _).
  eexists _, st', _. split; [exact E |].
  rewrite response_text. split; [done |]. split; [apply strip_spec |].
  split; [done |]. split; [apply merged_options_model | done].
Qed.

Lemma generate_normalises_reply_witness :
  ∃ response st' model,
    generate "call-1" "hello" None (Some 3%positive) example_env example_state
      = (Ret response, st') ∧
    text response = strip (spec_joined_text (default [] (reply_content example_reply))) ∧
    is_strip_of (spec_joined_text (default [] (reply_content example_reply)))
      (text response) ∧
    tool_calls response = [] ∧
    merged_options example_provider example_pipeline example_runtime !! "model"
      = Some model ∧
    metadata response = {["model" := model]}.
Proof.
  apply (generate_normalises_reply "call-1" "hello" None (Some 3%positive)
           example_env example_state example_provider example_pipeline
           example_runtime example_reply); reflexivity.
Defined.

Example example_response_text :
  text (response_of (VStr "m1") example_reply) = "Hello, world".
Proof. reflexivity. Qed.

(** ** The client handle *)

Lemma referent_grows st st' x r :
  heap_grows st st' → referent (heap st) x = Some r →
  referent (heap st') x = Some r.
Proof. intros H. destruct x as [l|]; simpl; [apply H | done]. Qed.

Lemma count_new_clients_construction st key :
  count_new_clients (construction st key) =
  match _client (self st) with Some _ => 0 | None => 1 end.
Proof. unfold construction. by destruct (_client (self st)). Qed.

(** A call that resolves a credential, with the SDK installed: the handle it
    leaves, and its events. *)
Lemma generate_runs call_id transcript context options env st p pl r :
  heap st !! _provider_defaults (self st) = Some p →
  heap st !! _pipeline_defaults (self st) = Some pl →
  referent (heap st) options = Some r →
  truthy (resolved_api_key p pl r) = true →
  anthropic_installed env = true →
  ∃ o st' logged,
    generate call_id transcript context options env st = (o, st') ∧
    _client (self st') = Some (handle_for st (resolved_api_key p pl r)) ∧
    trace st' =
      trace st ++ construction st (resolved_api_key p pl r) ++
      EvCreate (handle_for st (resolved_api_key p pl r))
        (request_for (_app_config (self st)) p pl r transcript) :: logged ∧
    count_new_clients logged = 0.
Proof.
  intros Hp Hpl Hr Hkey Hinst.
  destruct (generate_valid call_id transcript context options env st p pl r
              Hp Hpl Hr) as (o & st' & E & _ & Hcase).
  cbv zeta in Hcase. rewrite Hkey, Hinst in Hcase. cbn [negb] in Hcase.
  destruct Hcase as [K Hcase].
  destruct (messages_create _ _ _ _); destruct Hcase as [_ T];
    eexists o, st', _; (split; [exact E |]); (split; [exact K |]);
    (split; [exact T | reflexivity]).
Qed.

Lemma run_stop env st :
  ∃ st', stop env st = (Ret tt, st') ∧ _client (self st') = None ∧
         same_wiring st st' ∧ heap st' = heap st ∧ trace st' = trace st ∧
         constructed st' = constructed st.
Proof. eexists. split; [reflexivity |]. by repeat split. Qed.

(** C5. The handle is constructed at most once between two [stop]s. A call
    that reaches client construction while none is held constructs one with
    the api_key resolved on that call and keeps it; a call made while a
    handle is held constructs nothing and sends its request on the handle
    held, whatever api_key it resolves; [stop] leaves no handle, and the next
    call constructs one again; over any calls without a [stop] at most one
    construction happens, and none when a handle is held at the start. *)
Theorem client_handle_lifetime call_id transcript context options env st p pl r :
  heap st !! _provider_defaults (self st) = Some p →
  heap st !! _pipeline_defaults (self st) = Some pl →
  referent (heap st) options = Some r →
  truthy (resolved_api_key p pl r) = true →
  anthropic_installed env = true →
  let key := resolved_api_key p pl r in
  let st' := (generate call_id transcript context options env st).2 in
  let st'' := (generate call_id transcript context options env (stop env st').2).2 in
  (_client (self st) = None →
   _client (self st') =
     Some {| client_serial := constructed st; client_api_key := key |} ∧
   count_new_clients (trace st') = S (count_new_clients (trace st)) ∧
   EvNewClient {| client_serial := constructed st; client_api_key := key |}
     ∈ trace st') ∧
  (∀ c, _client (self st) = Some c →
        _client (self st') = Some c ∧
        count_new_clients (trace st') = count_new_clients (trace st) ∧
        EvCreate c (request_for (_app_config (self st)) p pl r transcript)
          ∈ trace st') ∧
  _client (self (stop env st').2) = None ∧
  (∃ c2, _client (self st'') = Some c2 ∧ client_api_key c2 = key ∧
         count_new_clients (trace st'') = S (count_new_clients (trace st'))) ∧
  (∀ cs, CallStop ∉ cs →
         (count_new_clients (trace (run_calls cs env st).2)
            ≤ count_new_clients (trace st) + 1)%nat ∧
         ∀ c, _client (self st) = Some c →
              _client (self (run_calls cs env st).2) = Some c ∧
              count_new_clients (trace (run_calls cs env st).2)
                = count_new_clients (trace st)).
Proof.
  intros Hp Hpl Hr Hkey Hinst key st' st''.
  destruct (generate_runs call_id transcript context options env st p pl r
              Hp Hpl Hr Hkey Hinst) as (o & st1 & logged & E & K & T & N).
  assert (st' = st1) as Hst' by (unfold st'; by rewrite E).
  clearbody st'. subst st'.
  pose proof (generate_step call_id transcript context options env st) as Hstep.
  rewrite E in Hstep. cbn [snd] in Hstep.
  destruct Hstep as (Hg & _ & _ & _ & (_ & _ & Wp & Wpl)).
  destruct (run_stop env st1) as (st2 & E2 & K2 & (_ & _ & Wp2 & Wpl2) & H2 & T2 & C2).
  assert (heap st2 !! _provider_defaults (self st2) = Some p) as Hp2
    by (rewrite Wp2, Wp, H2; by apply Hg).
  assert (heap st2 !! _pipeline_defaults (self st2) = Some pl) as Hpl2
    by (rewrite Wpl2, Wpl, H2; by apply Hg).
  assert (referent (heap st2) options = Some r) as Hr2
    by (rewrite H2; by apply (referent_grows st st1)).
  destruct (generate_runs call_id transcript context options env st2 p pl r
              Hp2 Hpl2 Hr2 Hkey Hinst) as (o3 & st3 & logged3 & E3 & K3 & T3 & N3).
  assert (st'' = st3) as Hst''
    by (unfold st''; rewrite E2; cbn [snd]; by rewrite E3).
  clearbody st''. subst st''. rewrite E2. cbn [snd].
  assert (∀ tr (c : Client) (q : Request) rest,
            count_new_clients rest = 0 →
            count_new_clients (tr ++ EvCreate c q :: rest) = count_new_clients tr)
    as Hcount.
  { intros tr c q rest Hrest.
    change (EvCreate c q :: rest) with ([EvCreate c q] ++ rest).
    rewrite !count_new_clients_app, Hrest. unfold count_new_clients at 2.
    simpl. lia. }
  split; [| split; [| split; [| split]]].
  - intros Hnone. rewrite K. unfold handle_for. rewrite Hnone.
    split; [done |]. split.
    + rewrite T, app_assoc, Hcount by done.
      rewrite count_new_clients_app, count_new_clients_construction, Hnone. lia.
    + rewrite T. unfold construction, handle_for. rewrite Hnone.
      fold key. set_solver.
  - intros c Hc. rewrite K. unfold handle_for. rewrite Hc.
    split; [done |]. split.
    + rewrite T, app_assoc, Hcount by done.
      rewrite count_new_clients_app, count_new_clients_construction, Hc. lia.
    + rewrite T. unfold construction, handle_for. rewrite Hc. set_solver.
  - done.
  - exists (handle_for st2 (resolved_api_key p pl r)). split; [done |].
    unfold handle_for at 1. rewrite K2. split; [done |].
    rewrite T3, app_assoc, Hcount by done.
    rewrite count_new_clients_app, count_new_clients_construction, K2, T2. lia.
  - intros cs Hcs.
    pose proof (run_calls_step cs env st Hcs) as (_ & [evs Te] & B & Kc & _).
    unfold client_budget in B. split.
    + destruct (_client (self st)); destruct (_client _); lia.
    + intros c Hc. split; [by apply Kc |].
      rewrite (Kc c Hc), Hc in B.
      rewrite Te, count_new_clients_app in *. lia.
Qed.

Lemma client_handle_lifetime_witness :
  (_client (self (generate "call-1" "hello" None (Some 3%positive) example_env
                    example_state).2) =
     Some {| client_serial := 0; client_api_key := VStr "k1" |} ∧
   count_new_clients
     (trace (generate "call-1" "hello" None (Some 3%positive) example_env
               example_state).2) = 1 ∧
   EvNewClient {| client_serial := 0; client_api_key := VStr "k1" |}
     ∈ trace (generate "call-1" "hello" None (Some 3%positive) example_env
                example_state).2) ∧
  _client (self (stop example_env
                   (generate "call-1" "hello" None (Some 3%positive) example_env
                      example_state).2).2) = None.
Proof.
  pose proof (client_handle_lifetime "call-1" "hello" None (Some 3%positive)
                example_env example_state example_provider example_pipeline
                example_runtime) as H.
  cbv zeta in H.
  destruct H as (H1 & _ & H3 & _); [reflexivity .. |].
  split; [apply H1; reflexivity | exact H3].
Defined.

(** ** The caller's dictionaries *)

Lemma _merge_options_cases runtime env st :
  (∃ l st', _merge_options runtime env st = (Ret l, st') ∧
            heap st !! l = None ∧ only_heap_grows st st' ∧
            is_Some (referent (heap st) runtime)) ∨
  _merge_options runtime env st = (Fault, st).
Proof.
  destruct (heap st !! _provider_defaults (self st)) as [p|] eqn:Hp;
    [destruct (heap st !! _pipeline_defaults (self st)) as [pl|] eqn:Hpl;
       [destruct (referent (heap st) runtime) as [r|] eqn:Hr |] |].
  - left. destruct (_merge_options_spec runtime env st p pl r Hp Hpl Hr)
      as (l & st' & E & G & F & _). exists l, st'.
    split; [done |]. split; [done |]. split; [done | by eexists].
  - right. destruct runtime as [l|]; [| done]. simpl in Hr.
    unfold _merge_options, or_empty_dict, mbind, M_bind, get_self, deref.
    by rewrite Hp, Hpl, Hr.
  - right. unfold _merge_options, mbind, M_bind, get_self, deref.
    by rewrite Hp, Hpl.
  - right. unfold _merge_options, mbind, M_bind, get_self, deref.
    by rewrite Hp.
Qed.

(** C6. [generate] leaves every dictionary object of its caller as it was,
    the [options] argument among them, whether it returns or raises; the
    merged options are a new object: the reference [_merge_options] returns
    names no dictionary that existed before, so it is not the [options]
    argument. *)
Theorem generate_leaves_options call_id transcript context options env st l d :
  heap st !! l = Some d →
  heap (generate call_id transcript context options env st).2 !! l = Some d ∧
  (∀ merged st', _merge_options options env st = (Ret merged, st') →
                 heap st !! merged = None ∧ options ≠ Some merged ∧
                 merged ≠ l ∧ heap st' !! l = Some d).
Proof.
  intros Hl. split.
  - by apply (generate_step call_id transcript context options env st).
  - intros merged st' E.
    destruct (_merge_options_cases options env st)
      as [(l' & st1 & E1 & F & G & [r Hr]) | E1]; rewrite E1 in E; [| done].
    injection E as -> ->. split; [done |]. split; [| split].
    + intros ->. simpl in Hr. congruence.
    + intros ->. congruence.
    + by apply G.
Qed.

Lemma generate_leaves_options_witness :
  heap (generate "call-1" "hello" None (Some 3%positive) example_env
          example_state).2 !! 3%positive = Some example_runtime ∧
  (∀ merged st',
     _merge_options (Some 3%positive) example_env example_state = (Ret merged, st') →
     heap example_state !! merged = None ∧ Some 3%positive ≠ Some merged ∧
     merged ≠ 3%positive ∧ heap st' !! 3%positive = Some example_runtime).
Proof.
  apply (generate_leaves_options "call-1" "hello" None (Some 3%positive)
           example_env example_state 3%positive example_runtime).
  reflexivity.
Defined.

(** ** Life cycle *)

Lemma run_calls_app cs1 cs2 env st :
  run_calls (cs1 ++ cs2) env st =
  ((run_calls cs1 env st).1 ++ (run_calls cs2 env (run_calls cs1 env st).2).1,
   (run_calls cs2 env (run_calls cs1 env st).2).2).
Proof.
  revert st. induction cs1 as [|c cs1 IH]; intros st; simpl.
  - by destruct (run_calls cs2 env st).
  - destruct (run_call c env st) as [o st1]. rewrite IH.
    destruct (run_calls cs1 env st1) as [os st2]. simpl.
    by destruct (run_calls cs2 env st2).
Qed.

Lemma run_calls_stop cs env st i :
  cs !! i = Some CallStop → (run_calls cs env st).1 !! i = Some (Ret None).
Proof.
  revert st i. induction cs as [|c cs IH]; intros st i Hi; [done |].
  simpl. destruct (run_call c env st) as [o st1] eqn:E.
  specialize (IH st1). destruct (run_calls cs env st1) as [os st2].
  destruct i as [|i]; simpl in *.
  - injection Hi as ->. simpl in E. by injection E as <- _.
  - by apply IH.
Qed.

(** C7. [stop] returns normally from every state of the adapter, started or
    not, and leaves the handle unset without logging, constructing a client
    or calling the remote service; so does a second [stop], and so does every
    [stop] in every sequence of calls. *)
Theorem stop_never_raises env st :
  ∃ st',
    stop env st = (Ret tt, st') ∧
    _client (self st') = None ∧ trace st' = trace st ∧ heap st' = heap st ∧
    stop env st' = (Ret tt, st') ∧
    (∀ cs i, cs !! i = Some CallStop →
             (run_calls cs env st).1 !! i = Some (Ret None)) ∧
    (∀ cs, (run_calls (cs ++ [CallStop]) env st).1
             = (run_calls cs env st).1 ++ [Ret None] ∧
           _client (self (run_calls (cs ++ [CallStop]) env st).2) = None ∧
           trace (run_calls (cs ++ [CallStop]) env st).2
             = trace (run_calls cs env st).2).
Proof.
  eexists. split; [reflexivity |]. simpl.
  split; [done |]. split; [done |]. split; [done |]. split; [done |]. split.
  - intros cs i. apply run_calls_stop.
  - intros cs. rewrite run_calls_app. simpl. done.
Qed.

Lemma stop_never_raises_witness :
  (run_calls [CallStop; CallStart; CallStop; CallStop] example_env example_state).1
    !! 2 = Some (Ret None).
Proof.
  destruct (stop_never_raises example_env example_state)
    as (st' & _ & _ & _ & _ & _ & H & _).
  apply (H [CallStop; CallStart; CallStop; CallStop] 2). reflexivity.
Defined.

Lemma or_empty_dict_no_raise x env st e : (or_empty_dict x env st).1 ≠ Raise e.
Proof.
  unfold or_empty_dict, mbind, M_bind, deref, alloc.
  destruct x as [l|]; [| done].
  destruct (heap st !! l) as [d|]; [| done]. by destruct (decide (d = ∅)).
Qed.

Lemma init_no_raise key cfg provider_config options env st e :
  (__init__ key cfg provider_config options env st).1 ≠ Raise e.
Proof.
  unfold __init__, mbind, M_bind.
  pose proof (or_empty_dict_no_raise provider_config env st) as H1.
  destruct (or_empty_dict provider_config env st) as [[l1| |] st1];
    [| by intros [= ->]; apply (H1 e) | done].
  pose proof (or_empty_dict_no_raise options env st1) as H2.
  destruct (or_empty_dict options env st1) as [[l2| |] st2];
    [done | by intros [= ->]; apply (H2 e) | done].
Qed.

(** C8. Without the [anthropic] package, construction never raises and
    [start] returns normally after logging one warning, leaving the adapter
    and the store as they were; a [generate] that resolves an api_key, right
    after [start] or in any other state, raises the [RuntimeError] of
    [_build_client] about the missing package, with no client constructed and
    no remote call made. *)
Theorem missing_dependency_is_lazy
    call_id transcript context options key cfg provider_config pipeline_options
    env st p pl r :
  anthropic_installed env = false →
  heap st !! _provider_defaults (self st) = Some p →
  heap st !! _pipeline_defaults (self st) = Some pl →
  referent (heap st) options = Some r →
  truthy (resolved_api_key p pl r) = true →
  (∀ e, (__init__ key cfg provider_config pipeline_options env st).1 ≠ Raise e) ∧
  (∃ st1,
     start env st = (Ret tt, st1) ∧
     trace st1 = trace st ++ [EvLog LWarning msg_not_installed_warning []] ∧
     self st1 = self st ∧ heap st1 = heap st ∧
     ∃ st2,
       generate call_id transcript context options env st1 =
         (Raise (RuntimeError msg_not_installed), st2) ∧
       trace st2 = trace st1 ∧ self st2 = self st1 ∧
       constructed st2 = constructed st1) ∧
  (∃ st',
     generate call_id transcript context options env st =
       (Raise (RuntimeError msg_not_installed), st') ∧
     trace st' = trace st ∧ self st' = self st ∧
     constructed st' = constructed st).
Proof.
  intros Hinst Hp Hpl Hr Hkey.
  assert (∀ s, heap s !! _provider_defaults (self s) = Some p →
               heap s !! _pipeline_defaults (self s) = Some pl →
               referent (heap s) options = Some r →
               ∃ s', generate call_id transcript context options env s =
                       (Raise (RuntimeError msg_not_installed), s') ∧
                     trace s' = trace s ∧ self s' = self s ∧
                     constructed s' = constructed s) as Hgen.
  { intros s Hps Hpls Hrs.
    destruct (generate_valid call_id transcript context options env s p pl r
                Hps Hpls Hrs) as (o & s' & E & _ & Hcase).
    cbv zeta in Hcase. rewrite Hkey, Hinst in Hcase. cbn [negb] in Hcase.
    destruct Hcase as (-> & S & T & C & _). by exists s'. }
  split; [intros e; apply init_no_raise |]. split; [| by apply Hgen].
  eexists. split; [unfold start, mbind, M_bind, get_env; by rewrite Hinst |].
  split; [done |]. split; [done |]. split; [done |].
  by apply Hgen.
Qed.

Lemma missing_dependency_is_lazy_witness :
  ∃ st',
    generate "call-1" "hello" None (Some 3%positive) example_env_no_sdk
      example_state = (Raise (RuntimeError msg_not_installed), st') ∧
    trace st' = trace example_state ∧ self st' = self example_state ∧
    constructed st' = constructed example_state.
Proof.
  apply (missing_dependency_is_lazy "call-1" "hello" None (Some 3%positive)
           "claude_llm" no_prompt None None example_env_no_sdk example_state
           example_provider example_pipeline example_runtime); reflexivity.
Defined.

(** C9. [generate] does not consult its [context] argument: with the same
    call identifier, transcript and options, from the same state, any two
    contexts give the same outcome and the same final state, hence the same
    merged options in the store, the same request with the same messages in
    the trace and the same response. *)
Theorem generate_ignores_context call_id transcript context1 context2 options env st :
  generate call_id transcript context1 options env st =
  generate call_id transcript context2 options env st.
Proof. reflexivity. Qed.

Lemma elem_of_middle {A} (x : A) (l1 l2 : list A) : x ∈ l1 ++ [x] ++ l2.
Proof. set_solver. Qed.

(** C10. When the highest of the pipeline defaults and the runtime options
    that has [api_key] gives it a falsy value, such as the empty string, and
    the provider defaults have a truthy [api_key], the merged options carry
    the falsy value but the credential [generate] resolves is the provider's:
    the call does not raise the missing-api_key error, and a client it
    constructs is constructed with the provider's key. *)
Theorem falsy_api_key_falls_back
    call_id transcript context options env st p pl r v k :
  heap st !! _provider_defaults (self st) = Some p →
  heap st !! _pipeline_defaults (self st) = Some pl →
  referent (heap st) options = Some r →
  r !! "api_key" = Some v ∨ (r !! "api_key" = None ∧ pl !! "api_key" = Some v) →
  truthy v = false →
  p !! "api_key" = Some k →
  truthy k = true →
  merged_options p pl r !! "api_key" = Some v ∧
  resolved_api_key p pl r = k ∧
  ∃ o st',
    generate call_id transcript context options env st = (o, st') ∧
    o ≠ Raise (RuntimeError msg_api_key) ∧
    (anthropic_installed env = true →
     _client (self st) = None →
     _client (self st') =
       Some {| client_serial := constructed st; client_api_key := k |} ∧
     EvNewClient {| client_serial := constructed st; client_api_key := k |}
       ∈ trace st').
Proof.
  intros Hp Hpl Hr Hv Hfalsy Hk Htruthy.
  assert (merged_options p pl r !! "api_key" = Some v) as Hm.
  { rewrite lookup_merged_options. unfold layered.
    destruct Hv as [-> | [-> ->]]; done. }
  assert (resolved_api_key p pl r = k) as Hres.
  { unfold resolved_api_key, py_or, dict_get. rewrite Hm, Hk. simpl.
    by rewrite Hfalsy. }
  split; [done |]. split; [done |].
  destruct (generate_valid call_id transcript context options env st p pl r
              Hp Hpl Hr) as (o & st' & E & _ & Hcase).
  cbv zeta in Hcase. rewrite Hres, Htruthy in Hcase. cbn [negb] in Hcase.
  exists o, st'. split; [done |].
  destruct (anthropic_installed env) eqn:Hinst; cbn [negb] in Hcase.
  - destruct Hcase as [K Hcase]. split.
    + destruct (messages_create _ _ _ _); destruct Hcase as [-> _]; done.
    + intros _ Hnone. unfold construction, handle_for in *.
      rewrite Hnone in *. split; [done |].
      destruct (messages_create _ _ _ _); destruct Hcase as [_ ->];
        apply elem_of_middle.
  - destruct Hcase as [-> _]. split; [| done].
    by intros [= H].
Qed.

Lemma falsy_api_key_falls_back_witness :
  merged_options example_provider blank_key_pipeline example_runtime !! "api_key"
    = Some (VStr "") ∧
  resolved_api_key example_provider blank_key_pipeline example_runtime = VStr "k1" ∧
  ∃ o st',
    generate "call-1" "hello" None (Some 3%positive) example_env blank_key_state
      = (o, st') ∧
    o ≠ Raise (RuntimeError msg_api_key) ∧
    (anthropic_installed example_env = true →
     _client (self blank_key_state) = None →
     _client (self st') =
       Some {| client_serial := constructed blank_key_state;
               client_api_key := VStr "k1" |} ∧
     EvNewClient {| client_serial := constructed blank_key_state;
                    client_api_key := VStr "k1" |} ∈ trace st').
Proof.
  apply (falsy_api_key_falls_back "call-1" "hello" None (Some 3%positive)
           example_env blank_key_state example_provider blank_key_pipeline
           example_runtime (VStr "") (VStr "k1"));
    first [reflexivity | right; split; reflexivity].
Defined.

(** * Further properties *)

(** ** Construction *)

Lemma or_empty_dict_alias x env st r :
  referent (heap st) x = Some r →
  ∃ l st', or_empty_dict x env st = (Ret l, st') ∧ only_heap_grows st st' ∧
           heap st' !! l = Some r ∧
           ((x = Some l ∧ r ≠ ∅ ∧ st' = st) ∨
            ((x = None ∨ r = ∅) ∧ heap st !! l = None)).
Proof.
  intros Hr. destruct x as [l|]; simpl in Hr.
  - unfold or_empty_dict.
    rewrite (run_bind_ret _ _ _ _ _ _ (run_deref _ _ env _ Hr)).
    destruct (decide (r = ∅)) as [->|Hne].
    + destruct (alloc_spec ∅ env st) as (l' & st' & E & G & F & Hh).
      exists l', st'. split; [done |]. split; [done |].
      split; [rewrite Hh; apply lookup_insert_eq |]. right. split; [by right | done].
    + exists l, st. split; [done |]. split; [reflexivity |]. split; [done |].
      by left.
  - injection Hr as <-. unfold or_empty_dict.
    destruct (alloc_spec ∅ env st) as (l' & st' & E & G & F & Hh).
    exists l', st'. split; [done |]. split; [done |].
    split; [rewrite Hh; apply lookup_insert_eq |]. right. split; [by left | done].
Qed.

(** X1. The constructor returns normally without logging, constructing a
    client or touching an existing dictionary, and leaves no handle. It
    keeps the very dictionary object it is given when that is not empty;
    for [None] or an empty dictionary it holds a new empty dictionary
    instead, a different one for the provider and for the pipeline
    defaults. *)
Theorem init_holds_references key cfg provider_config options env st dp dpl :
  referent (heap st) provider_config = Some dp →
  referent (heap st) options = Some dpl →
  ∃ st',
    __init__ key cfg provider_config options env st = (Ret tt, st') ∧
    _client (self st') = None ∧
    component_key (self st') = key ∧ _app_config (self st') = cfg ∧
    trace st' = trace st ∧ constructed st' = constructed st ∧
    heap_grows st st' ∧
    heap st' !! _provider_defaults (self st') = Some dp ∧
    heap st' !! _pipeline_defaults (self st') = Some dpl ∧
    (∀ l, provider_config = Some l → dp ≠ ∅ → _provider_defaults (self st') = l) ∧
    (∀ l, options = Some l → dpl ≠ ∅ → _pipeline_defaults (self st') = l) ∧
    (provider_config = None ∨ dp = ∅ →
     heap st !! _provider_defaults (self st') = None ∧
     _provider_defaults (self st') ≠ _pipeline_defaults (self st')) ∧
    (options = None ∨ dpl = ∅ →
     heap st !! _pipeline_defaults (self st') = None ∧
     _provider_defaults (self st') ≠ _pipeline_defaults (self st')).
Proof.
  intros Hp Hpl.
  destruct (or_empty_dict_alias provider_config env st dp Hp)
    as (l1 & st1 & E1 & G1 & L1 & A1).
  pose proof G1 as (S1 & T1 & C1 & H1).
  pose proof (referent_grows st st1 options dpl H1 Hpl) as Hpl1.
  destruct (or_empty_dict_alias options env st1 dpl Hpl1)
    as (l2 & st2 & E2 & G2 & L2 & A2).
  pose proof G2 as (S2 & T2 & C2 & H2).
  unfold __init__.
  rewrite (run_bind_ret _ _ _ _ _ _ E1), (run_bind_ret _ _ _ _ _ _ E2).
  eexists. split; [reflexivity |]. cbn [set_self self heap trace constructed fst snd
    _client component_key _app_config _provider_defaults _pipeline_defaults].
  split; [done |]. split; [done |]. split; [done |].
  split; [congruence |]. split; [congruence |].
  split; [intros l d E; cbn [heap]; by apply H2, H1 |].
  split; [by apply H2 |]. split; [done |].
  split; [| split; [| split]].
  - intros l -> Hne. destruct A1 as [([= ->] & _ & _) | [[? | ?] _]]; done.
  - intros l -> Hne. destruct A2 as [([= ->] & _ & _) | [[? | ?] _]]; done.
  - intros Hfresh.
    destruct A1 as [(-> & Hne & _) | [_ F1]];
      [by destruct Hfresh as [? | ?] |].
    split; [done |]. intros ->.
    destruct A2 as [(-> & _ & ->) | [_ F2]].
    + simpl in Hpl. congruence.
    + congruence.
  - intros Hfresh.
    destruct A2 as [(-> & Hne & _) | [_ F2]];
      [by destruct Hfresh as [? | ?] |].
    split.
    + destruct (heap st !! l2) as [d|] eqn:Hd; [| done].
      apply H1 in Hd. congruence.
    + intros ->. congruence.
Qed.

Lemma init_holds_references_witness :
  ∃ st',
    __init__ "claude_llm" no_prompt (Some 1%positive) None example_env
      example_state = (Ret tt, st') ∧
    _client (self st') = None ∧
    component_key (self st') = "claude_llm" ∧ _app_config (self st') = no_prompt ∧
    trace st' = trace example_state ∧
    constructed st' = constructed example_state ∧
    heap_grows example_state st' ∧
    heap st' !! _provider_defaults (self st') = Some example_provider ∧
    heap st' !! _pipeline_defaults (self st') = Some ∅ ∧
    (∀ l, Some 1%positive = Some l → example_provider ≠ ∅ →
          _provider_defaults (self st') = l) ∧
    (∀ l, @None loc = Some l → (∅ : dict) ≠ ∅ → _pipeline_defaults (self st') = l) ∧
    (Some 1%positive = None ∨ example_provider = ∅ →
     heap example_state !! _provider_defaults (self st') = None ∧
     _provider_defaults (self st') ≠ _pipeline_defaults (self st')) ∧
    (@None loc = None ∨ (∅ : dict) = ∅ →
     heap example_state !! _pipeline_defaults (self st') = None ∧
     _provider_defaults (self st') ≠ _pipeline_defaults (self st')).
Proof.
  apply (init_holds_references "claude_llm" no_prompt (Some 1%positive) None
           example_env example_state example_provider ∅); reflexivity.
Defined.

(** ** Outcomes of [generate] *)

(** X2. On valid references [generate] ends in one of four ways, decided
    in this order: the api_key error when no truthy credential resolves, the
    missing-package error, the error of the remote call, a response. The
    subscripts [merged["model"]] never raise [KeyError]. *)
Theorem generate_outcomes call_id transcript context options env st p pl r :
  heap st !! _provider_defaults (self st) = Some p →
  heap st !! _pipeline_defaults (self st) = Some pl →
  referent (heap st) options = Some r →
  ∃ o st',
    generate call_id transcript context options env st = (o, st') ∧
    (truthy (resolved_api_key p pl r) = false →
     o = Raise (RuntimeError msg_api_key)) ∧
    (truthy (resolved_api_key p pl r) = true → anthropic_installed env = false →
     o = Raise (RuntimeError msg_not_installed)) ∧
    (truthy (resolved_api_key p pl r) = true → anthropic_installed env = true →
     (∃ err, o = Raise (RemoteError err)) ∨ (∃ response, o = Ret response)) ∧
    o ≠ Fault ∧ (∀ k, o ≠ Raise (KeyError k)).
Proof.
  intros Hp Hpl Hr.
  destruct (generate_valid call_id transcript context options env st p pl r
              Hp Hpl Hr) as (o & st' & E & _ & Hcase).
  cbv zeta in Hcase. exists o, st'. split; [done |].
  destruct (truthy (resolved_api_key p pl r)); cbn [negb] in Hcase.
  - destruct (anthropic_installed env); cbn [negb] in Hcase.
    + destruct Hcase as [_ Hcase].
      destruct (messages_create _ _ _ _) as [resp|err]; destruct Hcase as [-> _].
      * split; [done |]. split; [done |]. split; [right; by eexists | done].
      * split; [done |]. split; [done |]. split; [left; by eexists | done].
    + destruct Hcase as [-> _]. by repeat split.
  - destruct Hcase as [-> _]. by repeat split.
Qed.

Lemma generate_outcomes_witness :
  ∃ o st',
    generate "call-1" "hello" None (Some 3%positive) example_env example_state
      = (o, st') ∧
    (truthy (resolved_api_key example_provider example_pipeline example_runtime)
       = false → o = Raise (RuntimeError msg_api_key)) ∧
    (truthy (resolved_api_key example_provider example_pipeline example_runtime)
       = true → anthropic_installed example_env = false →
     o = Raise (RuntimeError msg_not_installed)) ∧
    (truthy (resolved_api_key example_provider example_pipeline example_runtime)
       = true → anthropic_installed example_env = true →
     (∃ err, o = Raise (RemoteError err)) ∨ (∃ response, o = Ret response)) ∧
    o ≠ Fault ∧ (∀ k, o ≠ Raise (KeyError k)).
Proof.
  apply (generate_outcomes "call-1" "hello" None (Some 3%positive) example_env
           example_state example_provider example_pipeline example_runtime);
    reflexivity.
Defined.

(** X3. An error of the remote call leaves [generate] as it is raised:
    nothing is caught or retried. The request was sent once, no response line
    is logged, and a client constructed for the call stays held. *)
Theorem generate_propagates_remote_error
    call_id transcript context options env st p pl r err :
  heap st !! _provider_defaults (self st) = Some p →
  heap st !! _pipeline_defaults (self st) = Some pl →
  referent (heap st) options = Some r →
  truthy (resolved_api_key p pl r) = true →
  anthropic_installed env = true →
  messages_create env
    (trace st ++ construction st (resolved_api_key p pl r))
    (handle_for st (resolved_api_key p pl r))
    (request_for (_app_config (self st)) p pl r transcript) = Failed err →
  ∃ st',
    generate call_id transcript context options env st =
      (Raise (RemoteError err), st') ∧
    _client (self st') = Some (handle_for st (resolved_api_key p pl r)) ∧
    trace st' =
      trace st ++ construction st (resolved_api_key p pl r) ++
      [EvCreate (handle_for st (resolved_api_key p pl r))
         (request_for (_app_config (self st)) p pl r transcript)].
Proof.
  intros Hp Hpl Hr Hkey Hinst Hfail.
  destruct (generate_valid call_id transcript context options env st p pl r
              Hp Hpl Hr) as (o & st' & E & _ & Hcase).
  cbv zeta in Hcase. rewrite Hkey, Hinst in Hcase. cbn [negb] in Hcase.
  rewrite Hfail in Hcase. destruct Hcase as (K & -> & T). by exists st'.
Qed.

Lemma generate_propagates_remote_error_witness :
  ∃ st',
    generate "call-1" "hello" None (Some 3%positive) example_env_down example_state
      = (Raise (RemoteError "overloaded"), st') ∧
    _client (self st') = Some (handle_for example_state (VStr "k1")) ∧
    trace st' =
      trace example_state ++ construction example_state (VStr "k1") ++
      [EvCreate (handle_for example_state (VStr "k1"))
         (request_for no_prompt example_provider example_pipeline example_runtime
            "hello")].
Proof.
  apply (generate_propagates_remote_error "call-1" "hello" None (Some 3%positive)
           example_env_down example_state example_provider example_pipeline
           example_runtime "overloaded"); reflexivity.
Defined.

(** ** What the request is made of *)

Lemma dict_get_merged p pl r k :
  dict_get (merged_options p pl r) k =
  match layered p pl r k with
  | Some v => v
  | None => default VNone (fallback k)
  end.
Proof.
  unfold dict_get. rewrite lookup_merged_options.
  by destruct (layered p pl r k).
Qed.

Lemma dict_get_default_merged p pl r k dflt :
  is_Some (fallback k) →
  dict_get_default (merged_options p pl r) k dflt =
  match layered p pl r k with
  | Some v => v
  | None => default VNone (fallback k)
  end.
Proof.
  intros [v Hv]. unfold dict_get_default. rewrite lookup_merged_options.
  destruct (layered p pl r k); [done |]. by rewrite Hv.
Qed.

(** X4. The request carries, for [model], [max_tokens] and [temperature],
    the value of the highest layer that has the key, whatever that value is
    ([None] included), and the fallback literal only when no layer has it;
    the defaults written at the call site never apply. *)
Theorem request_parameters call_id transcript context options env st p pl r :
  heap st !! _provider_defaults (self st) = Some p →
  heap st !! _pipeline_defaults (self st) = Some pl →
  referent (heap st) options = Some r →
  truthy (resolved_api_key p pl r) = true →
  anthropic_installed env = true →
  ∃ o st' req,
    generate call_id transcript context options env st = (o, st') ∧
    sent_requests (trace st') = sent_requests (trace st) ++ [req] ∧
    req_model req =
      default (VStr "claude-3-5-sonnet-20240620") (layered p pl r "model") ∧
    req_max_tokens req = default (VInt 256) (layered p pl r "max_tokens") ∧
    req_temperature req =
      default (VFloat float_0_6) (layered p pl r "temperature") ∧
    (∀ v, r !! "model" = Some v → req_model req = v).
Proof.
  intros Hp Hpl Hr Hkey Hinst.
  destruct (generate_sends call_id transcript context options env st p pl r
              Hp Hpl Hr Hkey Hinst) as (o & st' & E & Hsent).
  exists o, st', (request_for (_app_config (self st)) p pl r transcript).
  split; [done |]. split; [done |].
  unfold request_for. cbn [req_model req_max_tokens req_temperature].
  rewrite dict_get_merged, !dict_get_default_merged by (by eexists).
  split; [by destruct (layered p pl r "model") |].
  split; [by destruct (layered p pl r "max_tokens") |].
  split; [by destruct (layered p pl r "temperature") |].
  intros v Hv. unfold layered. by rewrite Hv.
Qed.

Lemma request_parameters_witness :
  ∃ o st' req,
    generate "call-1" "hello" None (Some 3%positive) example_env example_state
      = (o, st') ∧
    sent_requests (trace st') = sent_requests (trace example_state) ++ [req] ∧
    req_model req = VStr "m1" ∧
    req_max_tokens req = VInt 256 ∧
    req_temperature req = VFloat float_0_9 ∧
    (∀ v, example_runtime !! "model" = Some v → req_model req = v).
Proof.
  apply (request_parameters "call-1" "hello" None (Some 3%positive) example_env
           example_state example_provider example_pipeline example_runtime);
    reflexivity.
Defined.



Lemma merged_options_agree p pl r r' k :
  r !! k = r' !! k → merged_options p pl r !! k = merged_options p pl r' !! k.
Proof. intros H. rewrite !lookup_merged_options. unfold layered. by rewrite H. Qed.

Lemma resolved_agree cfg p pl r r' transcript :
  Forall (fun k => r !! k = r' !! k) recognised_keys →
  resolved_api_key p pl r = resolved_api_key p pl r' ∧
  dict_get (merged_options p pl r) "model" = dict_get (merged_options p pl r') "model" ∧
  request_for cfg p pl r transcript = request_for cfg p pl r' transcript.
Proof.
  intros H. rewrite Forall_forall in H.
  assert (∀ k, k ∈ recognised_keys →
               merged_options p pl r !! k = merged_options p pl r' !! k) as Hm
    by (intros k Hk; by apply merged_options_agree, H).
  unfold request_for, resolved_system_prompt, resolved_api_key, dict_get,
    dict_get_default.
  rewrite (Hm "model"), (Hm "temperature"), (Hm "max_tokens"), (Hm "system"),
    (Hm "api_key"); [done | unfold recognised_keys; set_solver ..].
Qed.

(** X6. Only [model], [temperature], [max_tokens], [system] and [api_key]
    of the options are read: two calls from the same state whose runtime
    options agree on these five keys have the same outcome, the same events
    and the same handle, whatever else the options hold. *)
Theorem unrecognised_options_ignored
    call_id transcript context options options' env st p pl r r' :
  heap st !! _provider_defaults (self st) = Some p →
  heap st !! _pipeline_defaults (self st) = Some pl →
  referent (heap st) options = Some r →
  referent (heap st) options' = Some r' →
  Forall (fun k => r !! k = r' !! k) recognised_keys →
  (generate call_id transcript context options env st).1 =
    (generate call_id transcript context options' env st).1 ∧
  trace (generate call_id transcript context options env st).2 =
    trace (generate call_id transcript context options' env st).2 ∧
  _client (self (generate call_id transcript context options env st).2) =
    _client (self (generate call_id transcript context options' env st).2).
Proof.
  intros Hp Hpl Hr Hr' Hagree.
  destruct (resolved_agree (_app_config (self st)) p pl r r' transcript Hagree)
    as (Hkey & Hmodel & Hreq).
  destruct (generate_valid call_id transcript context options env st p pl r
              Hp Hpl Hr) as (o & st1 & E & _ & Hcase).
  destruct (generate_valid call_id transcript context options' env st p pl r'
              Hp Hpl Hr') as (o' & st2 & E' & _ & Hcase').
  cbv zeta in Hcase, Hcase'. rewrite E, E'. cbn [fst snd].
  rewrite <- Hkey, <- Hreq, <- Hmodel in Hcase'.
  destruct (truthy (resolved_api_key p pl r)); cbn [negb] in Hcase, Hcase'.
  - destruct (anthropic_installed env); cbn [negb] in Hcase, Hcase'.
    + destruct Hcase as [K Hcase], Hcase' as [K' Hcase'].
      rewrite K, K'.
      destruct (messages_create _ _ _ _);
        destruct Hcase as [-> ->], Hcase' as [-> ->]; done.
    + destruct Hcase as (-> & S & T & _), Hcase' as (-> & S' & T' & _).
      by rewrite S, S', T, T'.
  - destruct Hcase as (-> & S & T & _), Hcase' as (-> & S' & T' & _).
    by rewrite S, S', T, T'.
Qed.

Lemma unrecognised_options_ignored_witness :
  (generate "call-1" "hello" None (Some 3%positive) example_env two_options_state).1
    = (generate "call-1" "hello" None (Some 4%positive) example_env
         two_options_state).1 ∧
  trace (generate "call-1" "hello" None (Some 3%positive) example_env
           two_options_state).2
    = trace (generate "call-1" "hello" None (Some 4%positive) example_env
               two_options_state).2 ∧
  _client (self (generate "call-1" "hello" None (Some 3%positive) example_env
                   two_options_state).2)
    = _client (self (generate "call-1" "hello" None (Some 4%positive) example_env
                       two_options_state).2).
Proof.
  apply (unrecognised_options_ignored "call-1" "hello" None (Some 3%positive)
           (Some 4%positive) example_env two_options_state
           example_provider example_pipeline keyed_runtime
           (delete "top_p" keyed_runtime)); try reflexivity.
  repeat (constructor; [reflexivity |]). constructor.
Defined.

(** ** [None] and the empty dictionary *)

Lemma or_empty_dict_empty l env st :
  heap st !! l = Some ∅ → or_empty_dict (Some l) env st = or_empty_dict None env st.
Proof.
  intros H. unfold or_empty_dict.
  rewrite (run_bind_ret _ _ _ _ _ _ (run_deref _ _ env _ H)).
  by destruct (decide ((∅ : dict) = ∅)).
Qed.

Lemma run_deref_fault l env st :
  heap st !! l = None → deref l env st = (Fault, st).
Proof. intros E. unfold deref. by rewrite E. Qed.

Lemma run_bind_cong {A B} (m1 m2 : M A) (f : A → M B) env st :
  m1 env st = m2 env st → (m1 ≫= f) env st = (m2 ≫= f) env st.
Proof. intros E. unfold mbind, M_bind. by rewrite E. Qed.

(** X7. An empty dictionary and [None] are interchangeable, as the
    [options] of [generate], as the [runtime] of [_merge_options] and as the
    [provider_config] of the constructor: the outcome and the whole state
    after the call are the same. *)
Theorem empty_options_as_none call_id transcript context key cfg pipeline env st l :
  heap st !! l = Some ∅ →
  generate call_id transcript context (Some l) env st =
    generate call_id transcript context None env st ∧
  _merge_options (Some l) env st = _merge_options None env st ∧
  __init__ key cfg (Some l) pipeline env st = __init__ key cfg None pipeline env st.
Proof.
  intros H. pose proof (or_empty_dict_empty l env st H) as E.
  split; [by apply run_bind_cong |]. split; [| by apply run_bind_cong].
  unfold _merge_options.
  rewrite !(run_bind_ret get_self _ env st (self st) st eq_refl).
  destruct (heap st !! _provider_defaults (self st)) as [p|] eqn:Hp.
  2: { by rewrite !(run_bind_fault _ _ _ _ _ (run_deref_fault _ env _ Hp)). }
  rewrite !(run_bind_ret _ _ _ _ _ _ (run_deref _ _ env _ Hp)).
  destruct (heap st !! _pipeline_defaults (self st)) as [pl|] eqn:Hpl.
  2: { by rewrite !(run_bind_fault _ _ _ _ _ (run_deref_fault _ env _ Hpl)). }
  rewrite !(run_bind_ret _ _ _ _ _ _ (run_deref _ _ env _ Hpl)).
  by apply run_bind_cong.
Qed.

Lemma empty_options_as_none_witness :
  generate "call-1" "hello" None (Some 3%positive) example_env
      (world_of no_prompt None example_provider example_pipeline ∅) =
    generate "call-1" "hello" None None example_env
      (world_of no_prompt None example_provider example_pipeline ∅) ∧
  _merge_options (Some 3%positive) example_env
      (world_of no_prompt None example_provider example_pipeline ∅) =
    _merge_options None example_env
      (world_of no_prompt None example_provider example_pipeline ∅) ∧
  __init__ "claude_llm" no_prompt (Some 3%positive) None example_env
      (world_of no_prompt None example_provider example_pipeline ∅) =
    __init__ "claude_llm" no_prompt None None example_env
      (world_of no_prompt None example_provider example_pipeline ∅).
Proof.
  apply (empty_options_as_none "call-1" "hello" None "claude_llm" no_prompt None
           example_env
           (world_of no_prompt None example_provider example_pipeline ∅)
           3%positive).
  reflexivity.
Defined.

(** ** The text of a response *)

Lemma all_space_lstrip s : all_space s = true → lstrip s = "".
Proof.
  induction s as [|c s IH]; [done |]. cbn [all_space lstrip].
  intros [Hc Hs]%andb_true_iff. rewrite Hc. by apply IH.
Qed.

Lemma all_space_append a b :
  all_space a = true → all_space b = true → all_space (a +:+ b)%string = true.
Proof.
  intros Ha Hb. induction a as [|c a IH]; [done |].
  rewrite append_cons. cbn [all_space] in *.
  apply andb_true_iff in Ha as [Hc Ha]. by rewrite Hc, IH.
Qed.

Lemma all_space_join parts :
  Forall (fun s => all_space s = true) parts → all_space (join_empty parts) = true.
Proof.
  unfold join_empty. induction 1 as [|s parts Hs _ IH]; [done |].
  cbn [fold_right]. by apply all_space_append.
Qed.

Lemma all_space_collect blocks :
  Forall (fun b => is_text_block b = true →
                   all_space (block_text_or_empty b) = true) blocks →
  Forall (fun s => all_space s = true) (collect_text_parts blocks).
Proof.
  intros H. rewrite collect_text_parts_filter.
  induction H as [|b blocks Hb _ IH]; [constructor |].
  destruct (is_text_block b) eqn:Eb.
  - rewrite filter_cons_True by done. constructor; [by apply Hb | done].
  - rewrite filter_cons_False by (rewrite Eb; done). done.
Qed.

(** X8. A reply with no content, with no text-typed segment, or whose
    text-typed segments hold only whitespace (or lack their text) is not an
    error: [generate] returns a response whose text is the empty string. *)
Theorem blank_reply_gives_empty_text
    call_id transcript context options env st p pl r resp :
  heap st !! _provider_defaults (self st) = Some p →
  heap st !! _pipeline_defaults (self st) = Some pl →
  referent (heap st) options = Some r →
  truthy (resolved_api_key p pl r) = true →
  anthropic_installed env = true →
  messages_create env
    (trace st ++ construction st (resolved_api_key p pl r))
    (handle_for st (resolved_api_key p pl r))
    (request_for (_app_config (self st)) p pl r transcript) = Replied resp →
  Forall (fun b => is_text_block b = true →
                   all_space (block_text_or_empty b) = true)
    (default [] (reply_content resp)) →
  ∃ response st',
    generate call_id transcript context options env st = (Ret response, st') ∧
    text response = "" ∧ tool_calls response = [].
Proof.
  intros Hp Hpl Hr Hkey Hinst Hreply Hblank.
  destruct (generate_valid call_id transcript context options env st p pl r
              Hp Hpl Hr) as (o & st' & E & _ & Hcase).
  cbv zeta in Hcase. rewrite Hkey, Hinst in Hcase. cbn [negb] in Hcase.
  rewrite Hreply in Hcase. destruct Hcase as (_ & -> & _).
  eexists _, st'. split; [exact E |]. split; [| done].
  unfold response_of, strip. cbn [text].
  by rewrite all_space_lstrip by by apply all_space_join, all_space_collect.
Qed.

Lemma blank_reply_gives_empty_text_witness :
  ∃ response st',
    generate "call-1" "hello" None (Some 3%positive) example_env_blank example_state
      = (Ret response, st') ∧
    text response = "" ∧ tool_calls response = [].
Proof.
  apply (blank_reply_gives_empty_text "call-1" "hello" None (Some 3%positive)
           example_env_blank example_state example_provider example_pipeline
           example_runtime blank_reply); try reflexivity.
  repeat (constructor; [intros _; reflexivity |]). constructor.
Defined.

Lemma append_assoc_string (a b c : string) :
  ((a +:+ b) +:+ c)%string = (a +:+ (b +:+ c))%string.
Proof. induction a as [|x a IH]; [done |]. by rewrite !append_cons, IH. Qed.

Lemma join_empty_app l1 l2 :
  join_empty (l1 ++ l2) = (join_empty l1 +:+ join_empty l2)%string.
Proof.
  unfold join_empty. induction l1 as [|x l1 IH]; [done |].
  cbn [app fold_right]. by rewrite IH, append_assoc_string.
Qed.

Lemma collect_text_parts_app l1 l2 :
  collect_text_parts (l1 ++ l2) = collect_text_parts l1 ++ collect_text_parts l2.
Proof. by rewrite !collect_text_parts_filter, filter_app, map_app. Qed.

(** X9. The text gathered from a reply is the concatenation of the texts
    gathered from its parts, so it does not depend on how the reply is cut
    into text segments: one text segment and the same text in two
    consecutive text segments give the same response text. *)
Theorem text_independent_of_segmentation (l1 l2 pre post : list ContentBlock)
    (a b : string) :
  join_empty (collect_text_parts (l1 ++ l2)) =
    (join_empty (collect_text_parts l1) +:+ join_empty (collect_text_parts l2))%string ∧
  strip (join_empty (collect_text_parts
                       (pre ++ [text_block (a +:+ b)%string] ++ post))) =
    strip (join_empty (collect_text_parts
                         (pre ++ [text_block a; text_block b] ++ post))).
Proof.
  split; [by rewrite collect_text_parts_app, join_empty_app |].
  f_equal. rewrite !collect_text_parts_app, !join_empty_app. f_equal. f_equal.
  unfold collect_text_parts, join_empty. simpl.
  by rewrite !append_empty_r.
Qed.

Lemma length_append_string (a b : string) :
  String.length (a +:+ b)%string = String.length a + String.length b.
Proof. induction a as [|c a IH]; [done |]. rewrite append_cons. simpl. lia. Qed.

Lemma substring_prefix n s :
  ∃ rest, s = (substring 0 n s +:+ rest)%string ∧
          String.length (substring 0 n s) = Nat.min n (String.length s).
Proof.
  revert s. induction n as [|n IH]; intros s.
  - exists s. by destruct s.
  - destruct s as [|c s]; [by exists "" |].
    destruct (IH s) as (rest & E & L). exists rest.
    cbn [substring String.length]. rewrite append_cons, <- E, L. done.
Qed.

(** X10. After a reply the last event of the call is the debug line
    ["Claude response"]; its preview is the first 80 characters of the
    response text: a prefix of the text, no longer than 80, the whole text
    when that has at most 80 characters. *)
Theorem response_log_preview call_id transcript context options env st p pl r resp :
  heap st !! _provider_defaults (self st) = Some p →
  heap st !! _pipeline_defaults (self st) = Some pl →
  referent (heap st) options = Some r →
  truthy (resolved_api_key p pl r) = true →
  anthropic_installed env = true →
  messages_create env
    (trace st ++ construction st (resolved_api_key p pl r))
    (handle_for st (resolved_api_key p pl r))
    (request_for (_app_config (self st)) p pl r transcript) = Replied resp →
  ∃ response st' preview rest,
    generate call_id transcript context options env st = (Ret response, st') ∧
    last (trace st') =
      Some (EvLog LDebug "Claude response"
              [("call_id", VStr call_id);
               ("model", dict_get (merged_options p pl r) "model");
               ("preview", VStr preview)]) ∧
    text response = (preview +:+ rest)%string ∧
    String.length preview = Nat.min 80 (String.length (text response)) ∧
    (String.length (text response) ≤ 80 → preview = text response)%nat.
Proof.
  intros Hp Hpl Hr Hkey Hinst Hreply.
  destruct (generate_valid call_id transcript context options env st p pl r
              Hp Hpl Hr) as (o & st' & E & _ & Hcase).
  cbv zeta in Hcase. rewrite Hkey, Hinst in Hcase. cbn [negb] in Hcase.
  rewrite Hreply in Hcase. destruct Hcase as (_ & -> & T).
  set (model := dict_get (merged_options p pl r) "model") in *.
  destruct (substring_prefix 80 (text (response_of model resp)))
    as (rest & Hpre & Hlen).
  exists (response_of model resp), st',
    (substring 0 80 (text (response_of model resp))), rest.
  split; [done |]. split.
  - rewrite T, !app_assoc.
    change [EvCreate ?c ?q; ?e] with ([EvCreate c q] ++ [e]).
    rewrite app_assoc. apply last_snoc.
  - split; [done |]. split; [done |]. intros Hshort.
    rewrite Nat.min_r in Hlen by done.
    pose proof (f_equal String.length Hpre) as Hl.
    rewrite length_append_string, Hlen in Hl.
    assert (rest = "") as ->
      by (destruct rest; [done | cbn [String.length] in Hl; lia]).
    by rewrite append_empty_r in Hpre.
Qed.

Lemma response_log_preview_witness :
  ∃ response st' preview rest,
    generate "call-1" "hello" None (Some 3%positive) example_env example_state
      = (Ret response, st') ∧
    last (trace st') =
      Some (EvLog LDebug "Claude response"
              [("call_id", VStr "call-1");
               ("model",
                dict_get
                  (merged_options example_provider example_pipeline example_runtime)
                  "model");
               ("preview", VStr preview)]) ∧
    text response = (preview +:+ rest)%string ∧
    String.length preview = Nat.min 80 (String.length (text response)) ∧
    (String.length (text response) ≤ 80 → preview = text response)%nat.
Proof.
  apply (response_log_preview "call-1" "hello" None (Some 3%positive) example_env
           example_state example_provider example_pipeline example_runtime
           example_reply); reflexivity.
Defined.

(** ** Sequences of calls *)

Lemma run_call_budget c env st :
  (client_budget (run_call c env st).2
     ≤ client_budget st + (if is_stop c then 1 else 0))%nat.
Proof.
  assert (c = CallStop ∨ c ≠ CallStop) as [-> | Hc]
    by (destruct c; first [by left | by right]).
  - unfold client_budget. simpl. destruct (_client (self st)); lia.
  - pose proof (run_call_step c Hc env st) as (_ & _ & B & _).
    destruct (is_stop c); lia.
Qed.

Lemma run_calls_budget cs env st :
  (client_budget (run_calls cs env st).2 ≤ client_budget st + count_stops cs)%nat.
Proof.
  revert st. induction cs as [|c cs IH]; intros st; simpl; [lia |].
  pose proof (run_call_budget c env st) as Hc.
  destruct (run_call c env st) as [o st1]. specialize (IH st1).
  destruct (run_calls cs env st1) as [os st2]. simpl in *.
  unfold count_stops in *. destruct (is_stop c) eqn:Es.
  - rewrite filter_cons_True by done. simpl. lia.
  - rewrite filter_cons_False by (rewrite Es; done). lia.
Qed.

(** X11. Over any sequence of calls, [stop]s included, the clients
    constructed number at most one more than the [stop]s, and at most the
    [stop]s when a handle is held at the start. *)
Theorem constructions_bounded_by_stops cs env st :
  (count_new_clients (trace (run_calls cs env st).2)
     ≤ count_new_clients (trace st) + count_stops cs + 1)%nat ∧
  (is_Some (_client (self st)) →
   count_new_clients (trace (run_calls cs env st).2)
     ≤ count_new_clients (trace st) + count_stops cs)%nat.
Proof.
  pose proof (run_calls_budget cs env st) as B. unfold client_budget in B.
  split.
  - destruct (_client (self st)); destruct (_client (self _)); lia.
  - intros [c Hc]. rewrite Hc in B. destruct (_client (self _)); lia.
Qed.

Lemma constructions_bounded_by_stops_witness :
  (count_new_clients
     (trace (run_calls
               [CallGenerate "c1" "hi" None None; CallStop;
                CallGenerate "c2" "hi" None None; CallGenerate "c3" "hi" None None]
               example_env
               (world_of no_prompt (Some {| client_serial := 0;
                                            client_api_key := VStr "k0" |})
                  example_provider example_pipeline example_runtime)).2)
     ≤ 0 + 1)%nat.
Proof.
  apply (constructions_bounded_by_stops
           [CallGenerate "c1" "hi" None None; CallStop;
            CallGenerate "c2" "hi" None None; CallGenerate "c3" "hi" None None]
           example_env
           (world_of no_prompt (Some {| client_serial := 0;
                                        client_api_key := VStr "k0" |})
              example_provider example_pipeline example_runtime)).
  simpl. by eexists.
Defined.

Lemma run_bracketing_call c env st :
  is_bracketing c = true →
  ∃ logs, run_call c env st =
            (Ret None, {| self := self st; heap := heap st;
                          trace := trace st ++ logs;
                          constructed := constructed st |}) ∧
          Forall (fun e => is_log e = true) logs.
Proof.
  intros Hc. destruct c; try discriminate Hc.
  - simpl. unfold start, mbind, M_bind, get_env, get_self.
    destruct (anthropic_installed env); eexists [_];
      (split; [reflexivity | by repeat constructor]).
  - exists []. rewrite app_nil_r. destruct st. split; [done | constructor].
  - exists []. rewrite app_nil_r. destruct st. split; [done | constructor].
Qed.

Lemma sent_requests_logs logs :
  Forall (fun e => is_log e = true) logs →
  sent_requests logs = [] ∧ count_new_clients logs = 0.
Proof.
  induction 1 as [|e logs He _ [IH1 IH2]]; [done |].
  destruct e; try discriminate He. split; [done |].
  unfold count_new_clients in *. by rewrite filter_cons_False by (simpl; done).
Qed.

(** X12. [start], [open_call] and [close_call], in any number and order,
    all return normally and leave the adapter, its handle and every
    dictionary as they were; they only log: no client is constructed and no
    request is sent. Only [generate] reaches the SDK. *)
Theorem bracketing_calls_are_inert cs env st :
  forallb is_bracketing cs = true →
  ∃ logs,
    Forall (fun o => o = Ret None) (run_calls cs env st).1 ∧
    self (run_calls cs env st).2 = self st ∧
    heap (run_calls cs env st).2 = heap st ∧
    trace (run_calls cs env st).2 = trace st ++ logs ∧
    Forall (fun e => is_log e = true) logs ∧
    sent_requests (trace (run_calls cs env st).2) = sent_requests (trace st) ∧
    count_new_clients (trace (run_calls cs env st).2) = count_new_clients (trace st).
Proof.
  revert st. induction cs as [|c cs IH]; intros st Hcs.
  - exists []. simpl. rewrite app_nil_r. by repeat split.
  - cbn [forallb] in Hcs. apply andb_true_iff in Hcs as [Hc Hcs].
    destruct (run_bracketing_call c env st Hc) as (logs1 & E1 & L1).
    cbn [run_calls]. rewrite E1.
    match goal with |- context [run_calls cs env ?s] => set (st1 := s) end.
    destruct (IH st1 Hcs) as (logs2 & O2 & S2 & H2 & T2 & L2 & _).
    destruct (run_calls cs env st1) as [os st2]. cbn [fst snd] in *.
    exists (logs1 ++ logs2).
    assert (Forall (fun e => is_log e = true) (logs1 ++ logs2)) as L
      by by apply Forall_app.
    destruct (sent_requests_logs _ L) as [Hs Hn].
    split; [by constructor |]. split; [done |]. split; [done |].
    split; [rewrite T2; subst st1; cbn [trace]; by rewrite app_assoc |].
    split; [done |].
    rewrite T2. subst st1. cbn [trace].
    rewrite <- app_assoc, sent_requests_app, count_new_clients_app, Hs, Hn.
    rewrite app_nil_r. split; [done | lia].
Qed.

Lemma bracketing_calls_are_inert_witness :
  ∃ logs,
    Forall (fun o => o = Ret None)
      (run_calls [CallStart; CallOpen "c1" None; CallClose "c1"] example_env
         example_state).1 ∧
    self (run_calls [CallStart; CallOpen "c1" None; CallClose "c1"] example_env
            example_state).2 = self example_state ∧
    heap (run_calls [CallStart; CallOpen "c1" None; CallClose "c1"] example_env
            example_state).2 = heap example_state ∧
    trace (run_calls [CallStart; CallOpen "c1" None; CallClose "c1"] example_env
             example_state).2 = trace example_state ++ logs ∧
    Forall (fun e => is_log e = true) logs ∧
    sent_requests
      (trace (run_calls [CallStart; CallOpen "c1" None; CallClose "c1"] example_env
                example_state).2) = sent_requests (trace example_state) ∧
    count_new_clients
      (trace (run_calls [CallStart; CallOpen "c1" None; CallClose "c1"] example_env
                example_state).2) = count_new_clients (trace example_state).
Proof.
  apply (bracketing_calls_are_inert [CallStart; CallOpen "c1" None; CallClose "c1"]
           example_env example_state).
  reflexivity.
Defined.

(** X13. The adapter keeps no conversation: the request of a call is made
    of that call's transcript and options only. After a first call, a second
    one on the same options sends the request it would have sent alone;
    neither the earlier transcript nor the earlier reply is in it. *)
Theorem generate_keeps_no_history
    call_id transcript context call_id' transcript' context' options env st p pl r :
  heap st !! _provider_defaults (self st) = Some p →
  heap st !! _pipeline_defaults (self st) = Some pl →
  referent (heap st) options = Some r →
  truthy (resolved_api_key p pl r) = true →
  anthropic_installed env = true →
  sent_requests
    (trace (generate call_id' transcript' context' options env
              (generate call_id transcript context options env st).2).2) =
  sent_requests (trace st) ++
  [request_for (_app_config (self st)) p pl r transcript;
   request_for (_app_config (self st)) p pl r transcript'].
Proof.
  intros Hp Hpl Hr Hkey Hinst.
  destruct (generate_sends call_id transcript context options env st p pl r
              Hp Hpl Hr Hkey Hinst) as (o & st1 & E & Hsent).
  pose proof (generate_step call_id transcript context options env st) as Hstep.
  rewrite E in *. cbn [snd] in *.
  destruct Hstep as (Hg & _ & _ & _ & (_ & Wc & Wp & Wpl)).
  assert (heap st1 !! _provider_defaults (self st1) = Some p) as Hp1
    by (rewrite Wp; by apply Hg).
  assert (heap st1 !! _pipeline_defaults (self st1) = Some pl) as Hpl1
    by (rewrite Wpl; by apply Hg).
  pose proof (referent_grows st st1 options r Hg Hr) as Hr1.
  destruct (generate_sends call_id' transcript' context' options env st1 p pl r
              Hp1 Hpl1 Hr1 Hkey Hinst) as (o2 & st2 & E2 & Hsent2).
  rewrite E2. cbn [snd]. rewrite Hsent2, Hsent, Wc, <- app_assoc. done.
Qed.

Lemma generate_keeps_no_history_witness :
  sent_requests
    (trace (generate "call-2" "and then?" None (Some 3%positive) example_env
              (generate "call-1" "hello" None (Some 3%positive) example_env
                 example_state).2).2) =
  sent_requests (trace example_state) ++
  [request_for (_app_config (self example_state)) example_provider
     example_pipeline example_runtime "hello";
   request_for (_app_config (self example_state)) example_provider
     example_pipeline example_runtime "and then?"].
Proof.
  apply (generate_keeps_no_history "call-1" "hello" None "call-2" "and then?" None
           (Some 3%positive) example_env example_state example_provider
           example_pipeline example_runtime); reflexivity.
Defined.
